(** * os_win.c: the Windows OS layer of the database engine

    A shallow embedding of the file-locking protocol ([sqlite3OsLock],
    [sqlite3OsCheckWriteLock], [sqlite3OsUnlock] and their helpers) and of
    [sqlite3OsRead] / [sqlite3OsWrite], followed by the properties the
    specification states about them.

    The C functions talk to the host through Win32 calls.  Here the host is
    an oracle that answers every call, and every call (with its answer) is
    appended to a log, so that the order and the arguments of the calls a
    function issues can be stated and proved. *)

From Stdlib Require Import ZArith List Bool Lia.
Import ListNotations.
Local Open Scope Z_scope.

(* ================================================================== *)
(** ** Machine integers *)

(** [DWORD] and [unsigned int] are 32-bit unsigned, [int] is 32-bit signed
    two's complement.  Values are kept in [Z]; conversions wrap. *)
Definition to_DWORD (x : Z) : Z := x mod 2 ^ 32.
Definition to_int (x : Z) : Z := (x + 2 ^ 31) mod 2 ^ 32 - 2 ^ 31.

(* ================================================================== *)
(** ** Constants *)

(** Result codes of sqlite.h that os_win.c returns. *)
Inductive ResultCode : Type :=
  | SQLITE_OK
  | SQLITE_BUSY
  | SQLITE_IOERR
  | SQLITE_FULL.

(** Modelled from the spec: the lock levels of os.h, which is not among the
    sources.  The spec orders them NONE < SHARED < RESERVED < PENDING <
    EXCLUSIVE and the code compares them as [int]s; they are given the
    values 0 to 4, and the proofs below use their order only. *)
Definition NO_LOCK : Z := 0.
Definition SHARED_LOCK : Z := 1.
Definition RESERVED_LOCK : Z := 2.
Definition PENDING_LOCK : Z := 3.
Definition EXCLUSIVE_LOCK : Z := 4.

(** The byte ranges used for locking (os_win.c, lines 348-351).  [0xffffffff]
    is an [unsigned int], so the arithmetic is modulo 2^32. *)
Definition SHARED_SIZE : Z := 10238.
Definition SHARED_FIRST : Z := to_DWORD (0xffffffff - SHARED_SIZE + 1).
Definition RESERVED_BYTE : Z := to_DWORD (SHARED_FIRST - 1).
Definition PENDING_BYTE : Z := to_DWORD (RESERVED_BYTE - 1).

(** [VER_PLATFORM_WIN32_NT] of winbase.h. *)
Definition VER_PLATFORM_WIN32_NT : Z := 2.

(* ================================================================== *)
(** ** The file descriptor *)

(** [struct OsFile]: the host handle, the lock level currently held and the
    byte of the shared pool chosen on Win95/98/ME. *)
Record OsFile : Type := mkOsFile {
  h : Z;
  locktype : Z;
  sharedLockByte : Z
}.

Definition set_locktype (id : OsFile) (v : Z) : OsFile :=
  mkOsFile (h id) v (sharedLockByte id).

Definition set_sharedLockByte (id : OsFile) (v : Z) : OsFile :=
  mkOsFile (h id) (locktype id) v.

(* ================================================================== *)
(** ** The host *)

(** The calls os_win.c issues on behalf of a descriptor.  The high double
    words of offsets and lengths are 0 in every call of the file and are
    left out.  [LockFileEx] is always called with
    [LOCKFILE_FAIL_IMMEDIATELY] alone: a shared lock that does not block. *)
Inductive HostCall : Type :=
  | LockFile (hd : Z) (dwFileOffsetLow nNumberOfBytesToLockLow : Z)
  | LockFileEx (hd : Z) (Offset nNumberOfBytesToLockLow : Z)
  | UnlockFile (hd : Z) (dwFileOffsetLow nNumberOfBytesToUnlockLow : Z)
  | Sleep (dwMilliseconds : Z)
  | sqlite3Randomness (N : Z)
  | ReadFile (hd : Z) (lpBuffer : Z) (nNumberOfBytesToRead : Z)
  | WriteFile (hd : Z) (lpBuffer : Z) (nNumberOfBytesToWrite : Z).

(** What the host answers: the value the call returns ([BOOL] for the file
    calls) and the value it stores through its out-parameter (bytes
    transferred, or the random integer). *)
Record Reply : Type := mkReply {
  rv : Z;
  outv : Z
}.

Definition Event : Type := (HostCall * Reply)%type.

(** The world a function runs in.
    - [osType]: the static cache of [isNT] (0 = unknown, 1 = win95, 2 = winNT);
    - [dwPlatformId]: what [GetVersionEx] reports;
    - [io_error_hook]: see [SimulateIOError];
    - [host]: the answer to a call, given all that happened before;
    - [log]: the calls issued so far, oldest first, with their answers. *)
Record World : Type := mkWorld {
  osType : Z;
  dwPlatformId : Z;
  io_error_hook : bool;
  host : list Event -> HostCall -> Reply;
  log : list Event
}.

Definition set_osType (w : World) (v : Z) : World :=
  mkWorld v (dwPlatformId w) (io_error_hook w) (host w) (log w).

Definition set_log (w : World) (l : list Event) : World :=
  mkWorld (osType w) (dwPlatformId w) (io_error_hook w) (host w) l.

(** *** A state monad over the world *)

Definition M (A : Type) : Type := World -> A * World.

Definition ret {A : Type} (a : A) : M A := fun w => (a, w).

Definition bind {A B : Type} (c : M A) (k : A -> M B) : M B :=
  fun w => let (a, w') := c w in k a w'.

Declare Scope monad_scope.
Delimit Scope monad_scope with monad.
Notation "x <- c ;; k" := (bind c (fun x => k))
  (at level 61, c at next level, right associativity) : monad_scope.
Notation "' pat <- c ;; k" := (bind c (fun x => match x with pat => k end))
  (at level 61, pat pattern, c at next level, right associativity) : monad_scope.
Notation "c ;;; k" := (bind c (fun _ => k))
  (at level 61, right associativity) : monad_scope.
Local Open Scope monad_scope.

(** Issue a host call: ask the oracle and log the call with its answer. *)
Definition call (c : HostCall) : M Reply :=
  fun w => let r := host w (log w) c in (r, set_log w (log w ++ [(c, r)])).

(** Modelled from the spec: the simulated-I/O-error test hook behind the
    [SimulateIOError] macro of os_common.h, which is not among the sources.
    The spec (section 6, Diagnostics) describes it as a hook "that can force
    certain operations to return IOERR"; the world says whether it fires. *)
Definition SimulateIOError : M bool := fun w => (io_error_hook w, w).

(* ================================================================== *)
(** ** Host-variant detection (os_win.c, lines 364-373) *)

Definition isNT : M bool :=
  fun w =>
    let w1 := if osType w =? 0
              then set_osType w
                     (if dwPlatformId w =? VER_PLATFORM_WIN32_NT then 2 else 1)
              else w in
    (osType w1 =? 2, w1).

(* ================================================================== *)
(** ** Reader locks (os_win.c, lines 380-405) *)

Definition getReadLock (hd : Z) (iByte nByte : Z) : M Z :=
  nt <- isNT ;;
  if nt : bool then
    r <- call (LockFileEx hd iByte nByte) ;; ret (rv r)
  else
    r <- call (LockFile hd iByte nByte) ;; ret (rv r).

Definition unlockReadLock (id : OsFile) : M Z :=
  nt <- isNT ;;
  if nt : bool then
    r <- call (UnlockFile (h id) SHARED_FIRST SHARED_SIZE) ;; ret (rv r)
  else
    r <- call (UnlockFile (h id) (to_DWORD (SHARED_FIRST + sharedLockByte id)) 1) ;;
    ret (rv r).

(* ================================================================== *)
(** ** sqlite3OsLock (os_win.c, lines 413-487) *)

(** The loop of lines 432-438:
    [while( cnt-->0 && (res = LockFile(id->h, PENDING_BYTE, 0, 1, 0))==0 ) Sleep(1);]
    [res] is the value the variable holds when the loop is entered. *)
Fixpoint pending_loop (cnt : nat) (hd : Z) (res : Z) : M Z :=
  match cnt with
  | O => ret res
  | S cnt' =>
      r <- call (LockFile hd PENDING_BYTE 1) ;;
      if rv r =? 0 then call (Sleep 1) ;;; pending_loop cnt' hd (rv r)
      else ret (rv r)
  end.

(** Lines 443-455: the SHARED step, run when its guard holds. *)
Definition shared_step (id : OsFile) (ltype : Z) : M (Z * OsFile) :=
  nt <- isNT ;;
  '(res, id1) <-
    (if nt : bool then
       res <- getReadLock (h id) SHARED_FIRST SHARED_SIZE ;; ret (res, id)
     else
       r <- call (sqlite3Randomness 4) ;;
       let lk := to_int (outv r) in
       let id1 := set_sharedLockByte id
                    (Z.rem (Z.land lk 0x7fffffff) (SHARED_SIZE - 1)) in
       r <- call (LockFile (h id1)
                    (to_DWORD (SHARED_FIRST + sharedLockByte id1)) 1) ;;
       ret (rv r, id1)) ;;
  (if ltype <? PENDING_LOCK
   then call (UnlockFile (h id) PENDING_BYTE 1) ;;; ret tt
   else ret tt) ;;;
  ret (res, id1).

(** Lines 465-474: the EXCLUSIVE step, run when [locktype==EXCLUSIVE_LOCK]. *)
Definition exclusive_step (id : OsFile) (res : Z) : M Z :=
  res <- (if locktype id >=? SHARED_LOCK then unlockReadLock id else ret res) ;;
  if negb (res =? 0) then
    r <- call (LockFile (h id) SHARED_FIRST SHARED_SIZE) ;; ret (rv r)
  else ret 0.

Definition sqlite3OsLock (id : OsFile) (ltype : Z) : M (ResultCode * OsFile) :=
  if locktype id >=? ltype then ret (SQLITE_OK, id)
  else
    res <- (if (locktype id =? NO_LOCK) || (ltype =? PENDING_LOCK)
            then pending_loop 4 (h id) 1
            else ret 1) ;;
    '(res, id1) <-
      (if (ltype >=? SHARED_LOCK) && (locktype id <? SHARED_LOCK)
          && negb (res =? 0)
       then shared_step id ltype
       else ret (res, id)) ;;
    res <- (if (ltype >=? RESERVED_LOCK) && (locktype id1 <? RESERVED_LOCK)
               && negb (res =? 0)
            then getReadLock (h id1) RESERVED_BYTE 1
            else ret res) ;;
    res <- (if ltype =? EXCLUSIVE_LOCK then exclusive_step id1 res
            else ret res) ;;
    if negb (res =? 0) then ret (SQLITE_OK, set_locktype id1 ltype)
    else ret (SQLITE_BUSY, id1).

(* ================================================================== *)
(** ** sqlite3OsCheckWriteLock (os_win.c, lines 494-505) *)

(** [rc] is computed as the comment above the function announces, and then
    the function ends in [return 0;]. *)
Definition sqlite3OsCheckWriteLock (id : OsFile) : M Z :=
  rc <- (if locktype id >=? RESERVED_LOCK then ret 1
         else
           rc <- getReadLock (h id) RESERVED_BYTE 1 ;;
           (if negb (rc =? 0)
            then call (UnlockFile (h id) RESERVED_BYTE 1) ;;; ret tt
            else ret tt) ;;;
           ret rc) ;;
  ret 0.

(* ================================================================== *)
(** ** sqlite3OsUnlock (os_win.c, lines 513-530) *)

Definition sqlite3OsUnlock (id : OsFile) : M (ResultCode * OsFile) :=
  (if locktype id >=? EXCLUSIVE_LOCK
   then call (UnlockFile (h id) SHARED_FIRST SHARED_SIZE) ;;; ret tt
   else ret tt) ;;;
  (if locktype id >=? PENDING_LOCK
   then call (UnlockFile (h id) PENDING_BYTE 1) ;;; ret tt
   else ret tt) ;;;
  (if locktype id >=? RESERVED_LOCK
   then call (UnlockFile (h id) RESERVED_BYTE 1) ;;; ret tt
   else ret tt) ;;;
  (if locktype id =? SHARED_LOCK
   then unlockReadLock id ;;; ret tt
   else ret tt) ;;;
  ret (SQLITE_OK, set_locktype id NO_LOCK).

(* ================================================================== *)
(** ** sqlite3OsRead (os_win.c, lines 231-243) *)

(** [pBuf] is the address of the caller's buffer; the bytes themselves go
    from the host straight into it and are never inspected by the code. *)
Definition sqlite3OsRead (id : OsFile) (pBuf : Z) (amt : Z) : M ResultCode :=
  sim <- SimulateIOError ;;
  if sim : bool then ret SQLITE_IOERR
  else
    r <- call (ReadFile (h id) pBuf (to_DWORD amt)) ;;
    let got := if rv r =? 0 then 0 else to_DWORD (outv r) in
    if got =? to_DWORD amt then ret SQLITE_OK else ret SQLITE_IOERR.

(* ================================================================== *)
(** ** sqlite3OsWrite (os_win.c, lines 249-262) *)

(** The loop of lines 254-257.  A host that reports more bytes written than
    it was asked for can make [amt] grow again, so the loop is driven by
    [fuel]; [None] means the fuel ran out.  [rc] and [wrote] are the values
    the two variables hold when the loop is entered. *)
Fixpoint write_loop (fuel : nat) (hd pBuf amt rc wrote : Z) (w : World)
  : option (Z * Z * Z * World) :=
  if amt >? 0 then
    let (r, w1) := call (WriteFile hd pBuf (to_DWORD amt)) w in
    if negb (rv r =? 0) && (to_DWORD (outv r) >? 0) then
      match fuel with
      | O => None
      | S fuel' =>
          write_loop fuel' hd (pBuf + to_DWORD (outv r))
            (to_int (amt - to_DWORD (outv r))) (rv r) (to_DWORD (outv r)) w1
      end
    else Some (amt, rv r, to_DWORD (outv r), w1)
  else Some (amt, rc, wrote, w).

(** [int rc; DWORD wrote;] are declared without initialiser: [rc0] and
    [wrote0] stand for whatever the two variables hold at entry. *)
Definition sqlite3OsWrite (rc0 wrote0 : Z) (fuel : nat)
    (id : OsFile) (pBuf : Z) (amt : Z) (w : World)
  : option (ResultCode * World) :=
  let (sim, w0) := SimulateIOError w in
  if sim : bool then Some (SQLITE_IOERR, w0)
  else
    match write_loop fuel (h id) pBuf amt rc0 wrote0 w0 with
    | None => None
    | Some (amt', rc, wrote, w1) =>
        if (rc =? 0) || (amt' >? to_int wrote) then Some (SQLITE_FULL, w1)
        else Some (SQLITE_OK, w1)
    end.

(* ================================================================== *)
(** ** Sequences of lock operations *)

(** What a pager does to a descriptor: ask for a level, or unlock. *)
Inductive LockOp : Type :=
  | OpLock (ltype : Z)
  | OpUnlock.

Definition run_op (op : LockOp) (id : OsFile) : M (ResultCode * OsFile) :=
  match op with
  | OpLock ltype => sqlite3OsLock id ltype
  | OpUnlock => sqlite3OsUnlock id
  end.

(** Run a sequence of operations on one descriptor and record, for each,
    the operation, the level before, the result code and the level after. *)
Fixpoint run_ops (ops : list LockOp) (id : OsFile) (w : World)
  : list (LockOp * Z * ResultCode * Z) * OsFile * World :=
  match ops with
  | [] => ([], id, w)
  | op :: ops' =>
      let '(rc, id1, w1) := run_op op id w in
      let '(hist, id2, w2) := run_ops ops' id1 w1 in
      ((op, locktype id, rc, locktype id1) :: hist, id2, w2)
  end.

(* ================================================================== *)
(** ** Sample hosts and worlds *)

Definition granted : Reply := mkReply 1 0.
Definition refused : Reply := mkReply 0 0.

(** A host without contention: every call succeeds. *)
Definition host_grants_all : list Event -> HostCall -> Reply :=
  fun _ _ => granted.

(** A host on which every call fails. *)
Definition host_refuses_all : list Event -> HostCall -> Reply :=
  fun _ _ => refused.

(** A host that refuses to lock more than one byte at a time (another reader
    sits in the shared pool) and grants everything else. *)
Definition host_pool_busy : list Event -> HostCall -> Reply :=
  fun _ c =>
    match c with
    | LockFile _ _ n => if n =? 1 then granted else refused
    | _ => granted
    end.

(** A legacy host whose randomness source yields [lk]. *)
Definition host_random (lk : Z) : list Event -> HostCall -> Reply :=
  fun _ c =>
    match c with
    | sqlite3Randomness _ => mkReply 0 lk
    | _ => granted
    end.

(** A fresh process on WinNT/2K/XP, and one on Win95/98/ME. *)
Definition world_NT (hst : list Event -> HostCall -> Reply) : World :=
  mkWorld 0 VER_PLATFORM_WIN32_NT false hst [].
Definition world_95 (hst : list Event -> HostCall -> Reply) : World :=
  mkWorld 0 1 false hst [].

Definition fd_at (level : Z) : OsFile := mkOsFile 7 level 0.

(** What a descriptor at SHARED issues when it asks for EXCLUSIVE on a modern
    host whose pool is busy. *)
Definition promotion_events : list Event :=
  [(LockFileEx 7 RESERVED_BYTE 1, granted);
   (UnlockFile 7 SHARED_FIRST SHARED_SIZE, granted);
   (LockFile 7 SHARED_FIRST SHARED_SIZE, refused)].

(* ================================================================== *)
(** ** Vocabulary of the statements *)

(** Reading the triple a lock operation returns. *)
Definition rc_of (x : ResultCode * OsFile * World) : ResultCode := fst (fst x).
Definition fd_of (x : ResultCode * OsFile * World) : OsFile := snd (fst x).
Definition world_of (x : ResultCode * OsFile * World) : World := snd x.

(** What [isNT] answers in a world (true on a modern host, false on a legacy
    one), and the world with the cache of [isNT] warmed. *)
Definition nt_host (w : World) : bool := fst (isNT w).
Definition warmed (w : World) : World := snd (isNT w).

(** The call [getReadLock] issues, and the one [unlockReadLock] issues. *)
Definition read_lock_call (w : World) (hd iByte nByte : Z) : HostCall :=
  if nt_host w then LockFileEx hd iByte nByte else LockFile hd iByte nByte.

Definition read_unlock_call (w : World) (id : OsFile) : HostCall :=
  if nt_host w then UnlockFile (h id) SHARED_FIRST SHARED_SIZE
  else UnlockFile (h id) (to_DWORD (SHARED_FIRST + sharedLockByte id)) 1.

(** The rest of [sqlite3OsLock] once the SHARED step is over (lines 457-486):
    the RESERVED step, the EXCLUSIVE step and the final update. *)
Definition lock_tail (id1 : OsFile) (ltype : Z) (res : Z)
  : M (ResultCode * OsFile) :=
  res <- (if (ltype >=? RESERVED_LOCK) && (locktype id1 <? RESERVED_LOCK)
             && negb (res =? 0)
          then getReadLock (h id1) RESERVED_BYTE 1
          else ret res) ;;
  res <- (if ltype =? EXCLUSIVE_LOCK then exclusive_step id1 res
          else ret res) ;;
  if negb (res =? 0) then ret (SQLITE_OK, set_locktype id1 ltype)
  else ret (SQLITE_BUSY, id1).

(** The PENDING pre-lock as the loop of lines 432-438 runs it: at most [n]
    tries of a 1-byte [LockFile] on [PENDING_BYTE], a 1 ms sleep after each
    try that fails, the last one included; the boolean tells whether the
    byte was obtained. *)
Inductive pending_tries (hd : Z) : nat -> list Event -> bool -> Prop :=
  | tries_spent : pending_tries hd 0 [] false
  | tries_obtained (n : nat) (r : Reply) :
      rv r <> 0 ->
      pending_tries hd (S n) [(LockFile hd PENDING_BYTE 1, r)] true
  | tries_again (n : nat) (r s : Reply) (evs : list Event) (got : bool) :
      rv r = 0 ->
      pending_tries hd n evs got ->
      pending_tries hd (S n)
        ((LockFile hd PENDING_BYTE 1, r) :: (Sleep 1, s) :: evs) got.

(** What the code does for the PENDING pre-lock of a call
    [sqlite3OsLock id ltype]: the calls issued start with the run of the
    loop, and when no try obtains the byte nothing else is issued and the
    result is [SQLITE_BUSY]. *)
Definition pending_prelock_run (id : OsFile) (ltype : Z) (w : World) : Prop :=
  exists (run rest : list Event) (got : bool),
    log (world_of (sqlite3OsLock id ltype w)) = log w ++ run ++ rest /\
    pending_tries (h id) 4 run got /\
    (got = false ->
     rest = [] /\ rc_of (sqlite3OsLock id ltype w) = SQLITE_BUSY).

(** The tries of the PENDING pre-lock as the spec words them: at most [n]
    tries of a 1-byte exclusive lock on [PENDING_BYTE], with a 1 ms sleep
    between one try and the next.  The sequence ends with the try that
    obtains the byte or with the [n]-th try that fails; what comes after the
    last try is no part of it. *)
Inductive tries_between (hd : Z) : nat -> list Event -> bool -> Prop :=
  | between_obtained (n : nat) (r : Reply) :
      rv r <> 0 ->
      tries_between hd (S n) [(LockFile hd PENDING_BYTE 1, r)] true
  | between_failed (r : Reply) :
      rv r = 0 ->
      tries_between hd 1 [(LockFile hd PENDING_BYTE 1, r)] false
  | between_again (n : nat) (r s : Reply) (evs : list Event) (got : bool) :
      rv r = 0 ->
      tries_between hd (S n) evs got ->
      tries_between hd (S (S n))
        ((LockFile hd PENDING_BYTE 1, r) :: (Sleep 1, s) :: evs) got.

(** An event that belongs to no acquisition step: it locks nothing, unlocks
    nothing, draws no random byte and transfers no data.  Only a sleep is
    left. *)
Definition no_acquisition_step (e : Event) : Prop :=
  match fst e with
  | Sleep _ => True
  | _ => False
  end.

(** What the spec says of the PENDING pre-lock of a call [lock(fd, target)]:
    the calls the operation issues start with up to 4 tries, a 1 ms sleep
    between tries, and when all tries fail the result is BUSY and no further
    acquisition step is performed. *)
Definition pending_prelock (id : OsFile) (ltype : Z) (w : World) : Prop :=
  exists (tries rest : list Event) (got : bool),
    log (world_of (sqlite3OsLock id ltype w)) = log w ++ tries ++ rest /\
    tries_between (h id) 4 tries got /\
    (got = false ->
     Forall no_acquisition_step rest /\
     rc_of (sqlite3OsLock id ltype w) = SQLITE_BUSY).

(** The byte of the shared pool as the spec words it:
    [rand & 0x7fffffff mod (SHARED_SIZE-1)]. *)
Definition shared_byte (rand : Z) : Z :=
  (Z.land rand 0x7fffffff) mod (SHARED_SIZE - 1).

(** The number of bytes a [ReadFile] answer stands for: none when the call
    failed, else what the host stored in [got]. *)
Definition bytes_read (r : Reply) : Z :=
  if rv r =? 0 then 0 else to_DWORD (outv r).

(** The ranges [sqlite3OsUnlock] releases, by level, in the order of the code. *)
Definition unlock_calls (w : World) (id : OsFile) : list HostCall :=
  (if locktype id >=? EXCLUSIVE_LOCK
   then [UnlockFile (h id) SHARED_FIRST SHARED_SIZE] else []) ++
  (if locktype id >=? PENDING_LOCK
   then [UnlockFile (h id) PENDING_BYTE 1] else []) ++
  (if locktype id >=? RESERVED_LOCK
   then [UnlockFile (h id) RESERVED_BYTE 1] else []) ++
  (if locktype id =? SHARED_LOCK then [read_unlock_call w id] else []).

(** One step of a history of [run_ops]: a lock request leaves the level
    alone or raises it to the request; an unlock drops it to [NO_LOCK]. *)
Definition level_step_ok (e : LockOp * Z * ResultCode * Z) : Prop :=
  match e with
  | (OpLock ltype, before, _, after) =>
      after = before \/ (before < after /\ after = ltype)
  | (OpUnlock, _, _, after) => after = NO_LOCK
  end.

Definition op_of (e : LockOp * Z * ResultCode * Z) : LockOp :=
  fst (fst (fst e)).

(** A computation is append-only when it leaves the old entries of the log
    in place. *)
Definition appends {A : Type} (c : M A) : Prop :=
  forall w : World, exists evs : list Event, log (snd (c w)) = log w ++ evs.

(* ================================================================== *)
(** ** Vocabulary of the further properties of the locking code *)

(** A host without contention answers every call with a non-zero value. *)
Definition uncontended (w : World) : Prop :=
  forall (l : list Event) (c : HostCall), rv (host w l c) <> 0.

(** From [w] to [w']: same host, same host variant, and the log has grown
    by events that all satisfy [P]. *)
Definition steps_to (P : Event -> Prop) (w w' : World) : Prop :=
  host w' = host w /\ nt_host w' = nt_host w /\
  exists evs : list Event, log w' = log w ++ evs /\ Forall P evs.

Definition any_event (e : Event) : Prop := True.

Definition not_unlock (e : Event) : Prop :=
  match fst e with
  | UnlockFile _ _ _ => False
  | _ => True
  end.

(** An event that stays clear of the data of the file: a lock or unlock on
    the handle [hd] of a non-empty range inside [PENDING_BYTE .. 0xffffffff],
    a sleep or a random draw. *)
Definition in_lock_region (hd : Z) (e : Event) : Prop :=
  match fst e with
  | LockFile x off n | LockFileEx x off n | UnlockFile x off n =>
      x = hd /\ PENDING_BYTE <= off /\ 0 < n /\ off + n <= 2 ^ 32
  | Sleep _ | sqlite3Randomness _ => True
  | ReadFile _ _ _ | WriteFile _ _ _ => False
  end.

(** [sharedLockByte] holds an index of the shared pool. *)
Definition byte_ok (id : OsFile) : Prop :=
  0 <= sharedLockByte id <= SHARED_SIZE - 2.

(** What the locking code keeps true of a descriptor: whenever
    [unlockReadLock] can be reached on a legacy host, [sharedLockByte] has
    been set by the SHARED step. *)
Definition fd_inv (w : World) (id : OsFile) : Prop :=
  locktype id < SHARED_LOCK \/ nt_host w = true \/ byte_ok id.

(** The results of a history of [run_ops]. *)
Definition rc_in (e : LockOp * Z * ResultCode * Z) : ResultCode :=
  snd (fst e).

(** The calls a request [sqlite3OsLock id ltype] can issue in world [w]
    once past its first test, step by step. *)
Definition lock_may_issue (w : World) (id : OsFile) (ltype : Z) (c : HostCall)
  : Prop :=
  ((locktype id = NO_LOCK \/ ltype = PENDING_LOCK) /\
   (c = LockFile (h id) PENDING_BYTE 1 \/ c = Sleep 1)) \/
  (SHARED_LOCK <= ltype /\ locktype id < SHARED_LOCK /\
   ((nt_host w = true /\ c = LockFileEx (h id) SHARED_FIRST SHARED_SIZE) \/
    (nt_host w = false /\
     (c = sqlite3Randomness 4 \/
      exists b : Z, 0 <= b <= SHARED_SIZE - 2 /\
                    c = LockFile (h id) (SHARED_FIRST + b) 1)) \/
    (ltype < PENDING_LOCK /\ c = UnlockFile (h id) PENDING_BYTE 1))) \/
  (RESERVED_LOCK <= ltype /\ locktype id < RESERVED_LOCK /\
   c = read_lock_call w (h id) RESERVED_BYTE 1) \/
  (ltype = EXCLUSIVE_LOCK /\
   ((SHARED_LOCK <= locktype id /\ c = read_unlock_call w id) \/
    c = LockFile (h id) SHARED_FIRST SHARED_SIZE)).

(** The level a descriptor is expected to reach, by the rules of section
    4.2.1: a request raises the level to the maximum, an unlock drops it to
    [NO_LOCK]. *)
Definition level_after (ops : list LockOp) (level : Z) : Z :=
  fold_left (fun l op => match op with
                         | OpLock ltype => Z.max l ltype
                         | OpUnlock => NO_LOCK
                         end) ops level.

(** An event other than a lock of the PENDING byte through handle [hd]. *)
Definition not_pending_lock (hd : Z) (e : Event) : Prop :=
  fst e <> LockFile hd PENDING_BYTE 1.

(* ================================================================== *)
(** ** Vocabulary of the further properties of reading and writing *)

(** A host that never reports more bytes written than it was asked for. *)
Definition honest_writes (w : World) : Prop :=
  forall (l : list Event) (hd buf n : Z),
    0 <= n -> to_DWORD (outv (host w l (WriteFile hd buf n))) <= n.

(** The bytes the successful [WriteFile] calls of a log report. *)
Fixpoint written (evs : list Event) : Z :=
  match evs with
  | [] => 0
  | (WriteFile _ _ _, r) :: evs' =>
      (if rv r =? 0 then 0 else to_DWORD (outv r)) + written evs'
  | _ :: evs' => written evs'
  end.

(** The calls of a write of [amt] bytes at [pBuf] that handles short writes:
    each call asks for what is left, at the place the previous one stopped;
    the sequence ends with the first call that fails, writes nothing or
    writes all that is left. *)
Inductive write_chain (hd : Z) : Z -> Z -> list Event -> Prop :=
  | chain_last (pBuf amt : Z) (r : Reply) :
      rv r = 0 \/ to_DWORD (outv r) = 0 \/ to_DWORD (outv r) = amt ->
      write_chain hd pBuf amt [(WriteFile hd pBuf amt, r)]
  | chain_more (pBuf amt : Z) (r : Reply) (evs : list Event) :
      rv r <> 0 ->
      0 < to_DWORD (outv r) < amt ->
      write_chain hd (pBuf + to_DWORD (outv r)) (amt - to_DWORD (outv r)) evs ->
      write_chain hd pBuf amt ((WriteFile hd pBuf amt, r) :: evs).

(** A host that writes at most [chunk] bytes per call and never fails. *)
Definition host_chunks (chunk : Z) : list Event -> HostCall -> Reply :=
  fun _ c =>
    match c with
    | WriteFile _ _ n => mkReply 1 (Z.min n chunk)
    | _ => granted
    end.

(* ================================================================== *)
(** * The other file operations of os_win.c *)

From Stdlib Require Ascii String.
Import String.StringSyntax.
Delimit Scope string_scope with string.

(** [off_t] is a 64-bit signed integer. *)
Definition to_off_t (x : Z) : Z := (x + 2 ^ 63) mod 2 ^ 64 - 2 ^ 63.

(** A C string: the characters before the terminating 0. *)
Definition cstring : Type := list Ascii.ascii.

(** The host calls of the operations below.  [SetFilePointer] is always
    called with [FILE_BEGIN]; [RandomBytes N] stands for
    [sqlite3Randomness(N, buf)]. *)
Inductive SysCall : Type :=
  | GetFileAttributes (zFilename : cstring)
  | SetFilePointer (hd : Z) (lDistanceToMove lDistanceToMoveHigh : Z)
  | SetEndOfFile (hd : Z)
  | GetFileSize (hd : Z)
  | GetTempPath (nBufferLength : Z)
  | RandomBytes (N : Z).

(** The answer to such a call: the value returned, the value stored through
    an out-parameter (the high word of a size), the bytes stored in a
    buffer. *)
Record SysReply : Type := mkSysReply {
  sret : Z;
  shigh : Z;
  stext : list Ascii.ascii
}.

Definition SysEvent : Type := (SysCall * SysReply)%type.

(** The world of these operations: the simulated-error hook (the one of
    [SimulateIOError], modelled from the spec as there), the host and the
    log of the calls issued so far, oldest first. *)
Record Sys : Type := mkSys {
  sys_io_error_hook : bool;
  sys_host : list SysEvent -> SysCall -> SysReply;
  sys_log : list SysEvent
}.

Definition sys_call (c : SysCall) (s : Sys) : SysReply * Sys :=
  let r := sys_host s (sys_log s) c in
  (r, mkSys (sys_io_error_hook s) (sys_host s) (sys_log s ++ [(c, r)])).

(** ** sqlite3OsFileExists (os_win.c, lines 45-47) *)

Definition sqlite3OsFileExists (zFilename : cstring) (s : Sys) : bool * Sys :=
  let (r, s1) := sys_call (GetFileAttributes zFilename) s in
  (negb (to_DWORD (sret r) =? 0xffffffff), s1).

(** ** sqlite3OsSeek (os_win.c, lines 267-275) *)

(** [upperBits] and [lowerBits] are [LONG]s.  The [SEEK] and [TRACE3] macros
    only feed the trace and are left out. *)
Definition sqlite3OsSeek (id : OsFile) (offset : Z) (s : Sys)
  : ResultCode * Sys :=
  let upperBits := to_int (Z.shiftr offset 32) in
  let lowerBits := to_int (Z.land offset 0xffffffff) in
  let (_, s1) := sys_call (SetFilePointer (h id) lowerBits upperBits) s in
  (SQLITE_OK, s1).

(** ** sqlite3OsTruncate (os_win.c, lines 292-299) *)

Definition sqlite3OsTruncate (id : OsFile) (nByte : Z) (s : Sys)
  : ResultCode * Sys :=
  let upperBits := to_int (Z.shiftr nByte 32) in
  if sys_io_error_hook s then (SQLITE_IOERR, s)
  else
    let (_, s1) := sys_call (SetFilePointer (h id) (to_int nByte) upperBits) s in
    let (_, s2) := sys_call (SetEndOfFile (h id)) s1 in
    (SQLITE_OK, s2).

(** ** sqlite3OsFileSize (os_win.c, lines 304-310) *)

(** [pSize] is the value [*pSize] holds at entry; the new value is returned
    with the result code. *)
Definition sqlite3OsFileSize (id : OsFile) (pSize : Z) (s : Sys)
  : ResultCode * Z * Sys :=
  if sys_io_error_hook s then (SQLITE_IOERR, pSize, s)
  else
    let (r, s1) := sys_call (GetFileSize (h id)) s in
    let lowerBits := to_DWORD (sret r) in
    let upperBits := to_DWORD (shigh r) in
    (SQLITE_OK, to_off_t (to_off_t (upperBits * 2 ^ 32) + lowerBits), s1).

(** ** sqlite3OsTempFileName (os_win.c, lines 189-210) *)

Definition zChars : cstring :=
  String.list_ascii_of_string
    "abcdefghijklmnopqrstuvwxyzABCDEFGHIJKLMNOPQRSTUVWXYZ0123456789"%string.

Definition backslash : Ascii.ascii := Ascii.ascii_of_nat 92.

(** [for(i=strlen(zTempPath); i>0 && zTempPath[i-1]=='\\'; i--){}] *)
Fixpoint strip_loop (i : nat) (zTempPath : cstring) : nat :=
  match i with
  | O => O
  | S i' =>
      match nth_error zTempPath i' with
      | Some c => if Ascii.eqb c backslash then strip_loop i' zTempPath else i
      | None => i
      end
  end.

(** [zChars[ ((unsigned char)zBuf[j])%(sizeof(zChars)-1) ]] *)
Definition name_char (b : Ascii.ascii) : Ascii.ascii :=
  nth (Ascii.nat_of_ascii b mod (length zChars)) zChars Ascii.zero.

(** The loop [for(i=0; i<15; i++, j++)] over the bytes the randomness source
    stored at [zBuf[j..j+14]]; a byte it did not store reads as 0. *)
Definition random_suffix (bytes : list Ascii.ascii) : cstring :=
  map (fun i => name_char (nth i bytes Ascii.zero)) (seq 0 15).

Section TempFileName.

(** [TEMP_FILE_PREFIX] and [SQLITE_TEMPNAME_SIZE] come from os.h, which is
    not among the sources. *)
Variable TEMP_FILE_PREFIX : cstring.
Variable SQLITE_TEMPNAME_SIZE : Z.

(** The body of [for(;;)]: one candidate per round; [None] when the fuel
    ran out with every candidate in use. *)
Fixpoint temp_name_loop (fuel : nat) (zTempPath : cstring) (s : Sys)
  : option (cstring * Sys) :=
  match fuel with
  | O => None
  | S fuel' =>
      let zBuf := zTempPath ++ [backslash] ++ TEMP_FILE_PREFIX in
      let (r, s1) := sys_call (RandomBytes 15) s in
      let zBuf := zBuf ++ random_suffix (stext r) in
      let (used, s2) := sqlite3OsFileExists zBuf s1 in
      if used then temp_name_loop fuel' zTempPath s2 else Some (zBuf, s2)
  end.

Definition sqlite3OsTempFileName (fuel : nat) (s : Sys)
  : option (ResultCode * cstring * Sys) :=
  let (r, s1) := sys_call (GetTempPath (SQLITE_TEMPNAME_SIZE - 30)) s in
  let zTempPath := stext r in
  let i := strip_loop (length zTempPath) zTempPath in
  let zTempPath := firstn i zTempPath in
  match temp_name_loop fuel zTempPath s1 with
  | None => None
  | Some (zBuf, s2) => Some (SQLITE_OK, zBuf, s2)
  end.

End TempFileName.

(** ** The mutex without threads (os_win.c, lines 563-595) *)

(** Without [SQLITE_W32_THREADS] the two routines only check and flip
    [inMutex]; [None] is a failed [assert]. *)
Definition sqlite3OsEnterMutex (inMutex : Z) : option Z :=
  if inMutex =? 0 then Some 1 else None.

Definition sqlite3OsLeaveMutex (inMutex : Z) : option Z :=
  if inMutex =? 0 then None else Some 0.

Inductive MutexOp : Type :=
  | Enter
  | Leave.

Fixpoint run_mutex (ops : list MutexOp) (inMutex : Z) : option Z :=
  match ops with
  | [] => Some inMutex
  | Enter :: ops' =>
      match sqlite3OsEnterMutex inMutex with
      | Some m => run_mutex ops' m
      | None => None
      end
  | Leave :: ops' =>
      match sqlite3OsLeaveMutex inMutex with
      | Some m => run_mutex ops' m
      | None => None
      end
  end.

(** ** Vocabulary of the properties of these operations *)

(** Letters and digits. *)
Definition is_alnum (c : Ascii.ascii) : bool :=
  let n := Ascii.nat_of_ascii c in
  ((97 <=? n) && (n <=? 122) || (65 <=? n) && (n <=? 90)
   || (48 <=? n) && (n <=? 57))%nat.

(** A host on which no file exists. *)
Definition sys_host_empty : list SysEvent -> SysCall -> SysReply :=
  fun _ c =>
    match c with
    | GetTempPath _ =>
        mkSysReply 9 0
          (String.list_ascii_of_string "C:/TEMP"%string
             ++ [backslash; backslash])
    | RandomBytes _ =>
        mkSysReply 0 0 (String.list_ascii_of_string "0123456789abcde"%string)
    | _ => mkSysReply 0xffffffff 0 []
    end.

(** A host that reports a file of 5 GiB + 7 bytes. *)
Definition sys_host_big : list SysEvent -> SysCall -> SysReply :=
  fun _ c =>
    match c with
    | GetFileSize _ => mkSysReply 1073741831 1 []
    | _ => mkSysReply 1 0 []
    end.

(** Enter and leave in turn, starting with the given operation. *)
Fixpoint alternates (next : MutexOp) (ops : list MutexOp) : bool :=
  match ops, next with
  | [], _ => true
  | Enter :: ops', Enter => alternates Leave ops'
  | Leave :: ops', Leave => alternates Enter ops'
  | _, _ => false
  end.

(** A host on which no file of any name exists. *)
Definition nothing_exists (s : Sys) : Prop :=
  forall (l : list SysEvent) (name : cstring),
    to_DWORD (sret (sys_host s l (GetFileAttributes name))) = 0xffffffff.

(** [name] does not end with a backslash. *)
Definition no_trailing_backslash (name : cstring) : Prop :=
  forall q : cstring, name <> q ++ [backslash].

(** A sample world of these operations: a host without files, the prefix
    the engine uses, a buffer size. *)
Definition sys_empty : Sys := mkSys false sys_host_empty [].
Definition sample_prefix : cstring :=
  String.list_ascii_of_string "sqlite_"%string.

(* ================================================================== *)
(** * Properties *)

(** ** The host variant is fixed once and for all *)

Lemma isNT_eq (w : World) : isNT w = (nt_host w, warmed w).
Proof. unfold nt_host, warmed. destruct (isNT w); reflexivity. Qed.

Lemma isNT_cases (w : World) :
  (osType w = 0 /\ warmed w = set_osType w (if dwPlatformId w =? VER_PLATFORM_WIN32_NT then 2 else 1))
  \/ (osType w <> 0 /\ warmed w = w).
Proof.
  unfold warmed, isNT. destruct (Z.eqb_spec (osType w) 0); cbn [snd]; auto.
Qed.

Lemma nt_host_warmed (w : World) : nt_host (warmed w) = nt_host w.
Proof.
  unfold nt_host, warmed, isNT.
  destruct (Z.eqb_spec (osType w) 0) as [E|E]; cbn [fst snd].
  - destruct (dwPlatformId w =? VER_PLATFORM_WIN32_NT); reflexivity.
  - apply Z.eqb_neq in E. rewrite E. reflexivity.
Qed.

Lemma warmed_warmed (w : World) : warmed (warmed w) = warmed w.
Proof.
  unfold warmed, isNT.
  destruct (Z.eqb_spec (osType w) 0) as [E|E]; cbn [fst snd].
  - destruct (dwPlatformId w =? VER_PLATFORM_WIN32_NT); reflexivity.
  - apply Z.eqb_neq in E. rewrite E. reflexivity.
Qed.

Lemma nt_host_set_log (w : World) (l : list Event) :
  nt_host (set_log w l) = nt_host w.
Proof.
  unfold nt_host, isNT; cbn [osType dwPlatformId set_log].
  destruct (osType w =? 0); reflexivity.
Qed.

Lemma warmed_set_log (w : World) (l : list Event) :
  warmed (set_log w l) = set_log (warmed w) l.
Proof.
  unfold warmed, isNT; cbn [osType dwPlatformId set_log].
  destruct (osType w =? 0); reflexivity.
Qed.

Lemma log_warmed (w : World) : log (warmed w) = log w.
Proof. destruct (isNT_cases w) as [[_ E]|[_ E]]; rewrite E; reflexivity. Qed.

Lemma host_warmed (w : World) : host (warmed w) = host w.
Proof. destruct (isNT_cases w) as [[_ E]|[_ E]]; rewrite E; reflexivity. Qed.

Lemma isNT_warmed (w : World) : isNT (warmed w) = (nt_host w, warmed w).
Proof. rewrite isNT_eq, nt_host_warmed, warmed_warmed. reflexivity. Qed.

Lemma isNT_set_log (w : World) (l : list Event) :
  isNT (set_log w l) = (nt_host w, set_log (warmed w) l).
Proof. rewrite isNT_eq, nt_host_set_log, warmed_set_log. reflexivity. Qed.

Lemma call_eq (c : HostCall) (w : World) :
  call c w = (host w (log w) c, set_log w (log w ++ [(c, host w (log w) c)])).
Proof. reflexivity. Qed.

Lemma set_log_log (w : World) : set_log w (log w) = w.
Proof. destruct w; reflexivity. Qed.

Lemma read_lock_call_set_log (w : World) (l : list Event) (hd i n : Z) :
  read_lock_call (set_log w l) hd i n = read_lock_call w hd i n.
Proof. unfold read_lock_call. rewrite nt_host_set_log. reflexivity. Qed.

Lemma read_lock_call_warmed (w : World) (hd i n : Z) :
  read_lock_call (warmed w) hd i n = read_lock_call w hd i n.
Proof. unfold read_lock_call. rewrite nt_host_warmed. reflexivity. Qed.

Lemma read_unlock_call_set_log (w : World) (l : list Event) (id : OsFile) :
  read_unlock_call (set_log w l) id = read_unlock_call w id.
Proof. unfold read_unlock_call. rewrite nt_host_set_log. reflexivity. Qed.

Lemma read_unlock_call_warmed (w : World) (id : OsFile) :
  read_unlock_call (warmed w) id = read_unlock_call w id.
Proof. unfold read_unlock_call. rewrite nt_host_warmed. reflexivity. Qed.

#[global] Arguments isNT : simpl never.
#[global] Arguments nt_host : simpl never.
#[global] Arguments warmed : simpl never.

(** Symbolic execution of the monadic code: expose one layer, rewrite the
    host-variant queries to [nt_host] of the initial world, normalise. *)
Ltac norm :=
  repeat (rewrite ?isNT_set_log, ?isNT_warmed, ?isNT_eq,
            ?log_warmed, ?host_warmed, ?nt_host_warmed, ?nt_host_set_log,
            ?warmed_warmed, ?warmed_set_log,
            ?read_lock_call_set_log, ?read_lock_call_warmed,
            ?read_unlock_call_set_log, ?read_unlock_call_warmed;
          cbn [bind ret call fst snd log host set_log set_locktype
               set_sharedLockByte h locktype sharedLockByte
               rc_of fd_of world_of SimulateIOError]).

Ltac exec := unfold bind, ret; norm.

(** Give a name to every answer of the host that occurs in the goal. *)
Ltac name_replies :=
  repeat match goal with
         | |- context [host ?w ?l ?c] =>
             let r := fresh "reply" in
             set (r := host w l c) in *; clearbody r
         end.

(** Close a goal [log w ++ ... = log w ++ ?evs]. *)
Ltac solve_log :=
  first [ rewrite <- ?app_assoc; cbn [app]; reflexivity
        | symmetry; apply app_nil_r ].

Ltac levels :=
  unfold NO_LOCK, SHARED_LOCK, RESERVED_LOCK, PENDING_LOCK, EXCLUSIVE_LOCK in *.

(** ** The helpers, in closed form *)

Lemma getReadLock_eq (hd iByte nByte : Z) (w : World) :
  getReadLock hd iByte nByte w =
  let c := read_lock_call w hd iByte nByte in
  let r := host w (log w) c in
  (rv r, set_log (warmed w) (log w ++ [(c, r)])).
Proof.
  unfold getReadLock, read_lock_call. exec.
  destruct (nt_host w); norm; reflexivity.
Qed.

Lemma unlockReadLock_eq (id : OsFile) (w : World) :
  unlockReadLock id w =
  let c := read_unlock_call w id in
  let r := host w (log w) c in
  (rv r, set_log (warmed w) (log w ++ [(c, r)])).
Proof.
  unfold unlockReadLock, read_unlock_call. exec.
  destruct (nt_host w); norm; reflexivity.
Qed.

(** The SHARED step never touches the handle or the level of the
    descriptor: only [sharedLockByte] may change. *)
Lemma shared_step_fd (id : OsFile) (ltype : Z) (w : World) :
  h (snd (fst (shared_step id ltype w))) = h id /\
  locktype (snd (fst (shared_step id ltype w))) = locktype id.
Proof.
  unfold shared_step. exec.
  destruct (nt_host w); norm.
  - rewrite getReadLock_eq. norm. destruct (ltype <? PENDING_LOCK); norm; auto.
  - destruct (ltype <? PENDING_LOCK); norm; auto.
Qed.

(** The first test of [sqlite3OsLock] (lines 423-425). *)
Lemma sqlite3OsLock_early (id : OsFile) (ltype : Z) (w : World) :
  ltype <= locktype id -> sqlite3OsLock id ltype w = (SQLITE_OK, id, w).
Proof.
  intros L. unfold sqlite3OsLock.
  destruct (Z.geb_spec (locktype id) ltype); [reflexivity | lia].
Qed.

(** Past the first test, [sqlite3OsLock] ends in one of two ways: the level
    is set to the request and the result is [SQLITE_OK], or the level is left
    alone and the result is [SQLITE_BUSY]. *)
Lemma sqlite3OsLock_ends (id : OsFile) (ltype : Z) (w : World) :
  locktype id < ltype ->
  exists id1 w' (ok : bool),
    h id1 = h id /\ locktype id1 = locktype id /\
    sqlite3OsLock id ltype w =
    (if ok then (SQLITE_OK, set_locktype id1 ltype) else (SQLITE_BUSY, id1), w').
Proof.
  intros G. unfold sqlite3OsLock.
  destruct (Z.geb_spec (locktype id) ltype) as [G'|_]; [lia|].
  unfold bind at 1.
  destruct ((if (locktype id =? NO_LOCK) || (ltype =? PENDING_LOCK)
             then pending_loop 4 (h id) 1 else ret 1) w) as [res w1].
  unfold bind at 1.
  match goal with |- context [ (if ?c then shared_step id ltype else ?e) w1 ] =>
    assert (S : h (snd (fst ((if c then shared_step id ltype else e) w1))) = h id /\
                locktype (snd (fst ((if c then shared_step id ltype else e) w1)))
                = locktype id)
      by (destruct c; [apply shared_step_fd | split; reflexivity]);
    destruct ((if c then shared_step id ltype else e) w1) as [[res1 id1] w2]
  end.
  cbn [fst snd] in S. destruct S as [Sh Sl].
  unfold bind at 1.
  match goal with |- context [ (if ?c then ?a else ?e) w2 ] =>
    destruct ((if c then a else e) w2) as [res2 w3]
  end.
  unfold bind at 1.
  match goal with |- context [ (if ?c then ?a else ?e) w3 ] =>
    destruct ((if c then a else e) w3) as [res3 w4]
  end.
  exists id1, w4, (negb (res3 =? 0)). repeat split; auto.
  destruct (res3 =? 0); reflexivity.
Qed.

(** How [sqlite3OsLock] ends: with [SQLITE_OK] and nothing done, with
    [SQLITE_OK] and the level raised to the request, or with [SQLITE_BUSY]
    and the level as it was. *)
Lemma sqlite3OsLock_outcome (id : OsFile) (ltype : Z) (w : World) :
  (ltype <= locktype id /\
   sqlite3OsLock id ltype w = (SQLITE_OK, id, w)) \/
  (locktype id < ltype /\
   rc_of (sqlite3OsLock id ltype w) = SQLITE_OK /\
   locktype (fd_of (sqlite3OsLock id ltype w)) = ltype) \/
  (locktype id < ltype /\
   rc_of (sqlite3OsLock id ltype w) = SQLITE_BUSY /\
   locktype (fd_of (sqlite3OsLock id ltype w)) = locktype id).
Proof.
  destruct (Z.le_gt_cases ltype (locktype id)) as [G|G].
  - left. split; [exact G|]. apply sqlite3OsLock_early. exact G.
  - right.
    destruct (sqlite3OsLock_ends id ltype w G) as (id1 & w' & [|] & _ & L & E);
      rewrite E; cbn [rc_of fd_of fst snd set_locktype locktype]; auto.
Qed.

(** ** Closed form of [sqlite3OsUnlock] and [sqlite3OsCheckWriteLock] *)

(** [sqlite3OsUnlock] issues exactly the calls of [unlock_calls], in that
    order, sets the level to [NO_LOCK] and answers [SQLITE_OK]. *)
Lemma sqlite3OsUnlock_calls (id : OsFile) (w : World) :
  exists evs : list Event,
    map fst evs = unlock_calls w id /\
    log (world_of (sqlite3OsUnlock id w)) = log w ++ evs /\
    rc_of (sqlite3OsUnlock id w) = SQLITE_OK /\
    fd_of (sqlite3OsUnlock id w) = set_locktype id NO_LOCK.
Proof.
  unfold sqlite3OsUnlock, unlock_calls. exec.
  destruct (locktype id >=? EXCLUSIVE_LOCK); norm;
  destruct (locktype id >=? PENDING_LOCK); norm;
  destruct (locktype id >=? RESERVED_LOCK); norm;
  destruct (locktype id =? SHARED_LOCK); norm;
  rewrite ?unlockReadLock_eq; norm;
  (eexists; split; [| split; [solve_log | split; reflexivity]]);
  reflexivity.
Qed.

(** C1 -- [sqlite3OsCheckWriteLock] answers 0 for every descriptor and every
    host: when the descriptor itself is at RESERVED or above, and when the
    probe of [RESERVED_BYTE] fails because another process holds it.  The
    value [rc] that the comment above the function describes is computed and
    then dropped by the final [return 0]. *)
Theorem sqlite3OsCheckWriteLock_always_zero :
  forall (id : OsFile) (w : World), fst (sqlite3OsCheckWriteLock id w) = 0.
Proof.
  intros id w. unfold sqlite3OsCheckWriteLock. exec.
  destruct (locktype id >=? RESERVED_LOCK); norm; [reflexivity|].
  rewrite getReadLock_eq. norm.
  match goal with |- context [negb ?b] => destruct b end; reflexivity.
Qed.

(** C5 -- asking for a level at or below the one held does nothing: the
    result is [SQLITE_OK], the descriptor is unchanged and so is the world,
    hence no host call is logged. *)
Theorem sqlite3OsLock_noop :
  forall (id : OsFile) (ltype : Z) (w : World),
    ltype <= locktype id ->
    sqlite3OsLock id ltype w = (SQLITE_OK, id, w).
Proof.
  intros id ltype w L. apply sqlite3OsLock_early. exact L.
Qed.

Lemma sqlite3OsLock_noop_witness :
  SHARED_LOCK <= locktype (fd_at PENDING_LOCK) /\
  sqlite3OsLock (fd_at PENDING_LOCK) SHARED_LOCK (world_NT host_refuses_all)
  = (SQLITE_OK, fd_at PENDING_LOCK, world_NT host_refuses_all).
Proof.
  split.
  - vm_compute. discriminate.
  - apply (sqlite3OsLock_noop (fd_at PENDING_LOCK) SHARED_LOCK
             (world_NT host_refuses_all)).
    vm_compute. discriminate.
Defined.

(** C9 -- when [sqlite3OsLock] answers [SQLITE_BUSY], the level recorded in
    the descriptor is the one it had at entry, whatever the starting level,
    the request and the host. *)
Theorem sqlite3OsLock_busy_keeps_locktype :
  forall (id : OsFile) (ltype : Z) (w : World),
    rc_of (sqlite3OsLock id ltype w) = SQLITE_BUSY ->
    locktype (fd_of (sqlite3OsLock id ltype w)) = locktype id.
Proof.
  intros id ltype w B.
  destruct (sqlite3OsLock_outcome id ltype w) as [[_ E]|[(_ & E & _)|(_ & _ & E)]].
  - rewrite E. reflexivity.
  - rewrite E in B. discriminate.
  - exact E.
Qed.

Lemma sqlite3OsLock_busy_keeps_locktype_witness :
  rc_of (sqlite3OsLock (fd_at SHARED_LOCK) EXCLUSIVE_LOCK
           (world_NT host_pool_busy)) = SQLITE_BUSY /\
  locktype (fd_of (sqlite3OsLock (fd_at SHARED_LOCK) EXCLUSIVE_LOCK
                     (world_NT host_pool_busy)))
  = locktype (fd_at SHARED_LOCK).
Proof.
  split.
  - vm_compute. reflexivity.
  - apply (sqlite3OsLock_busy_keeps_locktype (fd_at SHARED_LOCK)
             EXCLUSIVE_LOCK (world_NT host_pool_busy)).
    vm_compute. reflexivity.
Defined.

(** C6 -- along every sequence of lock and unlock operations on a
    descriptor, each operation is recorded, each lock request leaves the
    level unchanged or raises it to the request, and each unlock sets it to
    [NO_LOCK]: the level goes down through unlock only. *)
Theorem locktype_never_decreases_but_by_unlock :
  forall (ops : list LockOp) (id : OsFile) (w : World),
    map op_of (fst (fst (run_ops ops id w))) = ops /\
    Forall level_step_ok (fst (fst (run_ops ops id w))).
Proof.
  induction ops as [|op ops IH]; intros id w.
  - split; [reflexivity | constructor].
  - cbn [run_ops].
    assert (S : level_step_ok
                  (op, locktype id, rc_of (run_op op id w),
                   locktype (fd_of (run_op op id w)))).
    { destruct op as [ltype|]; cbn [run_op level_step_ok].
      - destruct (sqlite3OsLock_outcome id ltype w)
          as [[_ E]|[(L & _ & E)|(_ & _ & E)]].
        + rewrite E. left. reflexivity.
        + right. split; [rewrite E; exact L | exact E].
        + left. exact E.
      - destruct (sqlite3OsUnlock_calls id w) as (evs & _ & _ & _ & E).
        rewrite E. reflexivity. }
    unfold rc_of, fd_of in S.
    destruct (run_op op id w) as [[rc id1] w1]. cbn [fst snd] in S.
    specialize (IH id1 w1).
    destruct (run_ops ops id1 w1) as [[hist id2] w2]. cbn [fst snd] in *.
    destruct IH as [IHm IHf]. split.
    + cbn [map op_of fst]. rewrite IHm. reflexivity.
    + constructor; assumption.
Qed.

(** ** The log only grows *)

Create HintDb appends.

Lemma appends_ret {A : Type} (a : A) : appends (ret a).
Proof. intros w. exists []. symmetry. apply app_nil_r. Qed.

Lemma appends_bind {A B : Type} (c : M A) (k : A -> M B) :
  appends c -> (forall a, appends (k a)) -> appends (bind c k).
Proof.
  intros Hc Hk w. unfold bind.
  destruct (Hc w) as [e1 E1]. destruct (c w) as [a w1]. cbn [snd] in E1.
  destruct (Hk a w1) as [e2 E2].
  exists (e1 ++ e2). rewrite E2, E1. symmetry. apply app_assoc.
Qed.

Lemma appends_call (c : HostCall) : appends (call c).
Proof. intros w. eexists. reflexivity. Qed.

Lemma appends_isNT : appends isNT.
Proof. intros w. exists []. rewrite isNT_eq. norm. symmetry. apply app_nil_r. Qed.

Lemma appends_if {A : Type} (b : bool) (c1 c2 : M A) :
  appends c1 -> appends c2 -> appends (if b then c1 else c2).
Proof. destruct b; auto. Qed.

Lemma appends_pair {A B C : Type} (x : A * B) (k : A -> B -> M C) :
  (forall a b, appends (k a b)) -> appends (let (a, b) := x in k a b).
Proof. destruct x; auto. Qed.

#[global] Hint Resolve appends_ret appends_bind appends_call appends_isNT
  appends_if appends_pair : appends.

Lemma appends_getReadLock (hd i n : Z) : appends (getReadLock hd i n).
Proof. unfold getReadLock. auto 10 with appends. Qed.

Lemma appends_unlockReadLock (id : OsFile) : appends (unlockReadLock id).
Proof. unfold unlockReadLock. auto 10 with appends. Qed.

#[global] Hint Resolve appends_getReadLock appends_unlockReadLock : appends.

Lemma appends_pending_loop (cnt : nat) (hd res : Z) :
  appends (pending_loop cnt hd res).
Proof.
  revert res. induction cnt as [|cnt IH]; intros res; cbn [pending_loop];
    auto 10 with appends.
Qed.

Lemma appends_shared_step (id : OsFile) (ltype : Z) :
  appends (shared_step id ltype).
Proof. unfold shared_step. auto 20 with appends. Qed.

Lemma appends_exclusive_step (id : OsFile) (res : Z) :
  appends (exclusive_step id res).
Proof. unfold exclusive_step. auto 10 with appends. Qed.

#[global] Hint Resolve appends_pending_loop appends_shared_step
  appends_exclusive_step : appends.

Lemma appends_lock_tail (id : OsFile) (ltype res : Z) :
  appends (lock_tail id ltype res).
Proof. unfold lock_tail. auto 10 with appends. Qed.

#[global] Hint Resolve appends_lock_tail : appends.

(** [sqlite3OsLock] past its first test, cut into the PENDING pre-lock, the
    SHARED step and the rest. *)
Lemma sqlite3OsLock_steps (id : OsFile) (ltype : Z) (w : World) :
  locktype id < ltype ->
  sqlite3OsLock id ltype w =
  let (res, w1) :=
    (if (locktype id =? NO_LOCK) || (ltype =? PENDING_LOCK)
     then pending_loop 4 (h id) 1 else ret 1) w in
  let '(res1, id1, w2) :=
    (if (ltype >=? SHARED_LOCK) && (locktype id <? SHARED_LOCK)
        && negb (res =? 0)
     then shared_step id ltype else ret (res, id)) w1 in
  lock_tail id1 ltype res1 w2.
Proof.
  intros G. unfold sqlite3OsLock.
  destruct (Z.geb_spec (locktype id) ltype); [lia|].
  unfold bind at 1.
  destruct ((if (locktype id =? NO_LOCK) || (ltype =? PENDING_LOCK)
             then pending_loop 4 (h id) 1 else ret 1) w) as [res w1].
  unfold bind at 1.
  match goal with |- context [ (if ?c then shared_step id ltype else ?e) w1 ] =>
    destruct ((if c then shared_step id ltype else e) w1) as [[res1 id1] w2]
  end.
  reflexivity.
Qed.

(** ** The PENDING pre-lock *)

(** The loop of [sqlite3OsLock] does what [pending_tries] says. *)
Lemma pending_loop_spec (cnt : nat) (hd : Z) :
  forall (res : Z) (w : World),
  exists (evs : list Event) (got : bool),
    pending_tries hd cnt evs got /\
    snd (pending_loop cnt hd res w) = set_log w (log w ++ evs) /\
    (got = true -> fst (pending_loop cnt hd res w) <> 0) /\
    (got = false ->
     fst (pending_loop cnt hd res w) = match cnt with O => res | S _ => 0 end).
Proof.
  induction cnt as [|cnt IH]; intros res w.
  - exists [], false. cbn [pending_loop ret fst snd].
    rewrite app_nil_r, set_log_log.
    repeat split; [constructor | discriminate].
  - cbn [pending_loop]. exec.
    destruct (Z.eqb_spec (rv (host w (log w) (LockFile hd PENDING_BYTE 1))) 0)
      as [F|F]; norm.
    + match goal with |- context [pending_loop cnt hd ?r ?w1] =>
        destruct (IH r w1) as (evs & got & T & W & Gt & Gf)
      end.
      eexists (_ :: _ :: evs), got. rewrite W. norm.
      split; [apply tries_again; [exact F | exact T]|].
      split; [rewrite <- !app_assoc; reflexivity|].
      split; [exact Gt|].
      intros Eg. rewrite (Gf Eg). destruct cnt; [exact F | reflexivity].
    + eexists [_], true.
      split; [apply tries_obtained; exact F|].
      split; [reflexivity|].
      split; [intros _; exact F | discriminate].
Qed.

(** C4, as stated, fails: a request for PENDING by a descriptor already at
    PENDING returns at the first test of the function.  No try on
    [PENDING_BYTE] is made, and on a host that would refuse every lock the
    result is [SQLITE_OK], not [SQLITE_BUSY]. *)
Lemma pending_prelock_skipped_when_held :
  ~ ((locktype (fd_at PENDING_LOCK) = NO_LOCK \/ PENDING_LOCK = PENDING_LOCK) ->
     pending_prelock (fd_at PENDING_LOCK) PENDING_LOCK
       (world_NT host_refuses_all)).
Proof.
  intros H. destruct (H (or_intror eq_refl)) as (tries & rest & got & L & T & _).
  rewrite sqlite3OsLock_early in L by (vm_compute; discriminate).
  cbn in L. destruct tries as [|e tries]; [inversion T | discriminate L].
Qed.

(** Past the first test, with [id->locktype==NO_LOCK] or
    [locktype==PENDING_LOCK], the calls issued start with the run of the
    loop of lines 432-438; when no try obtains the byte, nothing else is
    issued and the result is [SQLITE_BUSY]. *)
Lemma sqlite3OsLock_runs_pending_loop (id : OsFile) (ltype : Z) (w : World) :
  locktype id < ltype ->
  locktype id = NO_LOCK \/ ltype = PENDING_LOCK ->
  pending_prelock_run id ltype w.
Proof.
  intros G C. unfold pending_prelock_run.
  rewrite (sqlite3OsLock_steps id ltype w G).
  assert (Cb : (locktype id =? NO_LOCK) || (ltype =? PENDING_LOCK) = true).
  { apply orb_true_iff. destruct C; [left | right]; apply Z.eqb_eq; assumption. }
  rewrite Cb.
  destruct (pending_loop_spec 4 (h id) 1 w) as (evs & got & T & W & Gt & Gf).
  destruct (pending_loop 4 (h id) 1 w) as [res w1]. cbn [fst snd] in W, Gt, Gf.
  subst w1. destruct got.
  - (* the byte is obtained: whatever follows is appended *)
    match goal with |- context [ (if ?c then ?a else ?e) (set_log w ?l) ] =>
      assert (A : appends (if c then a else e)) by auto with appends;
      destruct (A (set_log w l)) as [e1 E1];
      destruct ((if c then a else e) (set_log w l)) as [[res1 id1] w2]
    end.
    cbn [snd log set_log] in E1.
    destruct (appends_lock_tail id1 ltype res1 w2) as [e2 E2].
    exists evs, (e1 ++ e2), true. split; [| split; [exact T | discriminate]].
    unfold world_of. rewrite E2, E1, <- !app_assoc. reflexivity.
  - (* every try failed *)
    rewrite (Gf eq_refl). cbn [Z.eqb negb]. rewrite andb_false_r.
    cbn [ret]. unfold lock_tail. rewrite andb_false_r. exec.
    assert (X : (if ltype =? EXCLUSIVE_LOCK then exclusive_step id 0 else ret 0)
                  (set_log w (log w ++ evs))
                = (0, set_log w (log w ++ evs))).
    { destruct (Z.eqb_spec ltype EXCLUSIVE_LOCK) as [E|E]; [|reflexivity].
      unfold exclusive_step. exec.
      destruct (Z.geb_spec (locktype id) SHARED_LOCK) as [S|S]; [|reflexivity].
      exfalso. levels. lia. }
    unfold ret in X. rewrite X. norm.
    exists evs, [], false. rewrite app_nil_r.
    split; [reflexivity | split; [exact T | intros _; split; reflexivity]].
Qed.

(** A run of the loop is a sequence of tries with a sleep between one try
    and the next, followed by nothing when the byte is obtained and by one
    more sleep when the last try has failed. *)
Lemma pending_tries_between (hd : Z) (n : nat) (run : list Event) (got : bool) :
  pending_tries hd (S n) run got ->
  exists tries rest : list Event,
    run = tries ++ rest /\
    tries_between hd (S n) tries got /\
    Forall no_acquisition_step rest.
Proof.
  revert run. induction n as [|n IH]; intros run T.
  - inversion T as [| m r F | m r s evs g F T']; subst.
    + exists [(LockFile hd PENDING_BYTE 1, r)], [].
      split; [reflexivity |]. split; [constructor; exact F | constructor].
    + inversion T'; subst.
      exists [(LockFile hd PENDING_BYTE 1, r)], [(Sleep 1, s)].
      split; [reflexivity |]. split; [constructor; exact F |].
      constructor; [exact I | constructor].
  - inversion T as [| m r F | m r s evs g F T']; subst.
    + exists [(LockFile hd PENDING_BYTE 1, r)], [].
      split; [reflexivity |]. split; [constructor; exact F | constructor].
    + destruct (IH evs T') as (tries & rest & E & B & N). subst evs.
      exists ((LockFile hd PENDING_BYTE 1, r) :: (Sleep 1, s) :: tries), rest.
      split; [reflexivity |]. split; [constructor; assumption | exact N].
Qed.

(** C4, amended -- for every call [lock(fd, target)] with
    [fd.locktype < target] and [fd.locktype = NONE] or [target = PENDING],
    the implementation attempts a 1-byte exclusive host lock on
    [PENDING_BYTE], retrying up to 4 times with a 1 ms sleep between tries,
    and when all attempts fail the call returns [SQLITE_BUSY] with no
    further acquisition step performed. *)
Theorem sqlite3OsLock_pending_prelock :
  forall (id : OsFile) (ltype : Z) (w : World),
    locktype id < ltype ->
    locktype id = NO_LOCK \/ ltype = PENDING_LOCK ->
    pending_prelock id ltype w.
Proof.
  intros id ltype w G C.
  destruct (sqlite3OsLock_runs_pending_loop id ltype w G C)
    as (run & rest & got & L & T & F).
  destruct (pending_tries_between (h id) 3 run got T)
    as (tries & idle & E & B & N).
  subst run. exists tries, (idle ++ rest), got.
  split; [rewrite L, <- !app_assoc; reflexivity |].
  split; [exact B |].
  intros Eg. destruct (F Eg) as [-> R]. rewrite app_nil_r. auto.
Qed.

Lemma sqlite3OsLock_pending_prelock_witness :
  locktype (fd_at NO_LOCK) < SHARED_LOCK /\
  (locktype (fd_at NO_LOCK) = NO_LOCK \/ SHARED_LOCK = PENDING_LOCK) /\
  pending_prelock (fd_at NO_LOCK) SHARED_LOCK (world_NT host_refuses_all).
Proof.
  split; [reflexivity|]. split; [left; reflexivity|].
  apply (sqlite3OsLock_pending_prelock (fd_at NO_LOCK) SHARED_LOCK
           (world_NT host_refuses_all)).
  - reflexivity.
  - left. reflexivity.
Defined.

(** ** Failure of the EXCLUSIVE promotion *)

Lemma read_lock_reserved_not_pool (w : World) (hd : Z) (r r' : Reply) :
  (read_lock_call w hd RESERVED_BYTE 1, r')
  <> (LockFile hd SHARED_FIRST SHARED_SIZE, r).
Proof.
  unfold read_lock_call. destruct (nt_host w); intros E; inversion E.
Qed.

Lemma read_unlock_not_lock (w : World) (id : OsFile) (r r' : Reply) :
  (read_unlock_call w id, r') <> (LockFile (h id) SHARED_FIRST SHARED_SIZE, r).
Proof.
  unfold read_unlock_call. destruct (nt_host w); intros E; inversion E.
Qed.

(** The path of [sqlite3OsLock] from SHARED, RESERVED or PENDING to
    EXCLUSIVE: the RESERVED byte if not yet held, the release of the reader
    lock, the exclusive lock on the pool. *)
Lemma sqlite3OsLock_to_exclusive (id : OsFile) (w : World) :
  SHARED_LOCK <= locktype id < EXCLUSIVE_LOCK ->
  sqlite3OsLock id EXCLUSIVE_LOCK w =
  let (_, w1) :=
    (if locktype id <? RESERVED_LOCK
     then getReadLock (h id) RESERVED_BYTE 1 else ret 1) w in
  let (u, w2) := unlockReadLock id w1 in
  if u =? 0 then (SQLITE_BUSY, id, w2)
  else
    let (l, w3) := call (LockFile (h id) SHARED_FIRST SHARED_SIZE) w2 in
    if rv l =? 0 then (SQLITE_BUSY, id, w3)
    else (SQLITE_OK, set_locktype id EXCLUSIVE_LOCK, w3).
Proof.
  intros [S G].
  rewrite (sqlite3OsLock_steps id EXCLUSIVE_LOCK w G).
  assert (N0 : (locktype id =? NO_LOCK) = false)
    by (apply Z.eqb_neq; levels; lia).
  assert (N1 : (locktype id <? SHARED_LOCK) = false)
    by (apply Z.ltb_ge; exact S).
  assert (N2 : (locktype id >=? SHARED_LOCK) = true)
    by (apply Z.geb_le; exact S).
  rewrite N0, N1.
  change (EXCLUSIVE_LOCK =? PENDING_LOCK) with false.
  change (EXCLUSIVE_LOCK >=? SHARED_LOCK) with true.
  cbn [orb andb negb]. unfold ret at 1 2.
  unfold lock_tail, exclusive_step. rewrite N2.
  change (EXCLUSIVE_LOCK >=? RESERVED_LOCK) with true.
  change (EXCLUSIVE_LOCK =? EXCLUSIVE_LOCK) with true.
  change (1 =? 0) with false.
  cbn [orb andb negb]. rewrite andb_true_r.
  unfold bind at 1.
  destruct ((if locktype id <? RESERVED_LOCK
             then getReadLock (h id) RESERVED_BYTE 1 else ret 1) w) as [x w1].
  unfold bind at 1 2.
  destruct (unlockReadLock id w1) as [u w2].
  destruct (u =? 0); cbn [negb]; [reflexivity|].
  unfold bind, ret. rewrite call_eq.
  match goal with |- context [negb ?b] => destruct b end; reflexivity.
Qed.

(** C2 -- take a call [lock(fd, EXCLUSIVE)] by a descriptor that holds SHARED
    or more, in which the exclusive [LockFile] on the whole pool is issued
    and fails.  Then the result is [SQLITE_BUSY], the level of the descriptor
    is the one it had, and the last two calls of the operation are the
    successful release of the reader lock on the pool followed by the failed
    [LockFile]: the reader lock is not taken again. *)
Theorem sqlite3OsLock_exclusive_failure :
  forall (id : OsFile) (w : World) (evs : list Event) (r : Reply),
    SHARED_LOCK <= locktype id ->
    log (world_of (sqlite3OsLock id EXCLUSIVE_LOCK w)) = log w ++ evs ->
    In (LockFile (h id) SHARED_FIRST SHARED_SIZE, r) evs ->
    rv r = 0 ->
    rc_of (sqlite3OsLock id EXCLUSIVE_LOCK w) = SQLITE_BUSY /\
    locktype (fd_of (sqlite3OsLock id EXCLUSIVE_LOCK w)) = locktype id /\
    exists (pre : list Event) (u : Reply),
      rv u <> 0 /\
      evs = pre ++ [(read_unlock_call w id, u);
                    (LockFile (h id) SHARED_FIRST SHARED_SIZE, r)].
Proof.
  intros id w evs r S L I F.
  destruct (Z.lt_ge_cases (locktype id) EXCLUSIVE_LOCK) as [G|G].
  2: { rewrite sqlite3OsLock_early in L by exact G. cbn [world_of snd] in L.
       rewrite <- (app_nil_r (log w)) in L at 1.
       apply app_inv_head in L. subst evs. destruct I. }
  revert L. rewrite (sqlite3OsLock_to_exclusive id w (conj S G)).
  destruct (locktype id <? RESERVED_LOCK);
    rewrite ?getReadLock_eq; norm; rewrite unlockReadLock_eq; norm;
    name_replies;
    repeat match goal with
           | |- context [rv ?x =? 0] => destruct (Z.eqb_spec (rv x) 0)
           end;
    norm; intros L; rewrite <- ?app_assoc in L; apply app_inv_head in L;
    subst evs; cbn [app In] in I;
    repeat match type of I with _ \/ _ => destruct I as [I|I] end;
    try (destruct I; fail);
    try (exfalso; revert I; apply read_lock_reserved_not_pool);
    try (exfalso; revert I; apply read_unlock_not_lock);
    injection I as ->; try contradiction;
    (split; [reflexivity | split; [reflexivity|]]);
    first [ exists [], reply; split; [assumption | reflexivity]
          | eexists [_], reply; split; [assumption | reflexivity] ].
Qed.

Lemma sqlite3OsLock_exclusive_failure_witness :
  (SHARED_LOCK <= locktype (fd_at SHARED_LOCK) /\
   log (world_of (sqlite3OsLock (fd_at SHARED_LOCK) EXCLUSIVE_LOCK
                    (world_NT host_pool_busy)))
   = log (world_NT host_pool_busy) ++ promotion_events /\
   In (LockFile (h (fd_at SHARED_LOCK)) SHARED_FIRST SHARED_SIZE, refused)
      promotion_events /\
   rv refused = 0) /\
  (rc_of (sqlite3OsLock (fd_at SHARED_LOCK) EXCLUSIVE_LOCK
            (world_NT host_pool_busy)) = SQLITE_BUSY /\
   locktype (fd_of (sqlite3OsLock (fd_at SHARED_LOCK) EXCLUSIVE_LOCK
                      (world_NT host_pool_busy)))
   = locktype (fd_at SHARED_LOCK) /\
   exists (pre : list Event) (u : Reply),
     rv u <> 0 /\
     promotion_events =
     pre ++ [(read_unlock_call (world_NT host_pool_busy) (fd_at SHARED_LOCK), u);
             (LockFile (h (fd_at SHARED_LOCK)) SHARED_FIRST SHARED_SIZE,
              refused)]).
Proof.
  assert (H1 : SHARED_LOCK <= locktype (fd_at SHARED_LOCK))
    by (vm_compute; discriminate).
  assert (H2 : log (world_of (sqlite3OsLock (fd_at SHARED_LOCK) EXCLUSIVE_LOCK
                                (world_NT host_pool_busy)))
               = log (world_NT host_pool_busy) ++ promotion_events)
    by (vm_compute; reflexivity).
  assert (H3 : In (LockFile (h (fd_at SHARED_LOCK)) SHARED_FIRST SHARED_SIZE,
                   refused) promotion_events)
    by (right; right; left; reflexivity).
  assert (H4 : rv refused = 0) by reflexivity.
  split.
  - repeat split; assumption.
  - exact (sqlite3OsLock_exclusive_failure (fd_at SHARED_LOCK)
             (world_NT host_pool_busy) promotion_events refused H1 H2 H3 H4).
Defined.

(** ** The byte of the shared pool on a legacy host *)

(** The C expression [(lk & 0x7fffffff)%(SHARED_SIZE - 1)] is the byte of
    the spec: the left operand of [%] is never negative. *)
Lemma shared_byte_eq (lk : Z) :
  Z.rem (Z.land lk 0x7fffffff) (SHARED_SIZE - 1) = shared_byte lk.
Proof.
  unfold shared_byte. apply Z.rem_mod_nonneg.
  - apply Z.land_nonneg. right. discriminate.
  - reflexivity.
Qed.

Lemma shared_byte_range (lk : Z) : 0 <= shared_byte lk <= SHARED_SIZE - 2.
Proof.
  unfold shared_byte.
  assert (B : 0 <= Z.land lk 0x7fffffff mod (SHARED_SIZE - 1) < SHARED_SIZE - 1)
    by (apply Z.mod_pos_bound; reflexivity).
  lia.
Qed.

(** The offset [SHARED_FIRST+id->sharedLockByte] does not wrap. *)
Lemma shared_offset_no_wrap (b : Z) :
  0 <= b <= SHARED_SIZE - 2 -> to_DWORD (SHARED_FIRST + b) = SHARED_FIRST + b.
Proof.
  intros B. unfold to_DWORD. apply Z.mod_small.
  change SHARED_FIRST with 4294957058. unfold SHARED_SIZE in B. lia.
Qed.

(** The SHARED step on a legacy host, in closed form. *)
Lemma shared_step_legacy (id : OsFile) (ltype : Z) (w : World) :
  nt_host w = false ->
  exists (rnd lk : Reply) (post : list Event),
    log (snd (shared_step id ltype w)) =
    log w ++ [(sqlite3Randomness 4, rnd);
              (LockFile (h id)
                 (SHARED_FIRST + shared_byte (to_int (outv rnd))) 1, lk)]
          ++ post /\
    snd (fst (shared_step id ltype w))
    = set_sharedLockByte id (shared_byte (to_int (outv rnd))).
Proof.
  intros NT. unfold shared_step. exec. rewrite NT. norm.
  rewrite !shared_byte_eq.
  rewrite !shared_offset_no_wrap by apply shared_byte_range.
  name_replies.
  destruct (ltype <? PENDING_LOCK); norm; name_replies;
    eexists _, _, _; (split; [solve_log | reflexivity]).
Qed.

(** The rest of [sqlite3OsLock] leaves [sharedLockByte] alone. *)
Lemma lock_tail_sharedLockByte (id1 : OsFile) (ltype res : Z) (w : World) :
  sharedLockByte (snd (fst (lock_tail id1 ltype res w))) = sharedLockByte id1.
Proof.
  unfold lock_tail. unfold bind at 1.
  match goal with |- context [ (if ?c then ?a else ?e) w ] =>
    destruct ((if c then a else e) w) as [res2 w3]
  end.
  unfold bind at 1.
  match goal with |- context [ (if ?c then ?a else ?e) w3 ] =>
    destruct ((if c then a else e) w3) as [res3 w4]
  end.
  destruct (negb (res3 =? 0)); reflexivity.
Qed.

(** C7 -- on a legacy host, when a call [lock(fd, target)] with
    [target >= SHARED] and [fd.locktype < SHARED] reaches the SHARED step
    (the PENDING pre-lock, if attempted, is obtained), it draws a random
    integer [rand], takes a 1-byte [LockFile] at offset [SHARED_FIRST + byte]
    where [byte = (rand & 0x7fffffff) mod (SHARED_SIZE - 1)], leaves [byte]
    in [fd.sharedLockByte], and [byte] lies in [0 .. SHARED_SIZE - 2]. *)
Theorem sqlite3OsLock_legacy_shared_byte :
  forall (id : OsFile) (ltype : Z) (w : World),
    nt_host w = false ->
    SHARED_LOCK <= ltype ->
    locktype id < SHARED_LOCK ->
    (locktype id = NO_LOCK \/ ltype = PENDING_LOCK ->
     fst (pending_loop 4 (h id) 1 w) <> 0) ->
    exists (pre : list Event) (rnd lk : Reply) (post : list Event),
      log (world_of (sqlite3OsLock id ltype w)) =
      log w ++ pre
            ++ [(sqlite3Randomness 4, rnd);
                (LockFile (h id)
                   (SHARED_FIRST + shared_byte (to_int (outv rnd))) 1, lk)]
            ++ post /\
      sharedLockByte (fd_of (sqlite3OsLock id ltype w))
      = shared_byte (to_int (outv rnd)) /\
      0 <= shared_byte (to_int (outv rnd)) <= SHARED_SIZE - 2.
Proof.
  intros id ltype w NT S L P.
  rewrite (sqlite3OsLock_steps id ltype w) by lia.
  (* the PENDING pre-lock leaves a non-zero [res] *)
  assert (A : exists evs,
             snd ((if (locktype id =? NO_LOCK) || (ltype =? PENDING_LOCK)
                   then pending_loop 4 (h id) 1 else ret 1) w)
             = set_log w (log w ++ evs) /\
             fst ((if (locktype id =? NO_LOCK) || (ltype =? PENDING_LOCK)
                   then pending_loop 4 (h id) 1 else ret 1) w) <> 0).
  { destruct ((locktype id =? NO_LOCK) || (ltype =? PENDING_LOCK)) eqn:C.
    - destruct (pending_loop_spec 4 (h id) 1 w) as (evs & got & _ & W & _).
      exists evs. split; [exact W|]. apply P.
      apply orb_true_iff in C. destruct C as [C|C]; apply Z.eqb_eq in C; auto.
    - exists []. cbn [ret fst snd]. rewrite app_nil_r, set_log_log.
      split; [reflexivity | discriminate]. }
  destruct A as (pre & W & R).
  destruct ((if (locktype id =? NO_LOCK) || (ltype =? PENDING_LOCK)
             then pending_loop 4 (h id) 1 else ret 1) w) as [res w1].
  cbn [fst snd] in W, R. subst w1.
  (* so the SHARED step runs *)
  assert (G : (ltype >=? SHARED_LOCK) && (locktype id <? SHARED_LOCK)
              && negb (res =? 0) = true).
  { rewrite !andb_true_iff. repeat split.
    - apply Z.geb_le. exact S.
    - apply Z.ltb_lt. exact L.
    - apply negb_true_iff, Z.eqb_neq. exact R. }
  rewrite G.
  destruct (shared_step_legacy id ltype (set_log w (log w ++ pre)))
    as (rnd & lk & post1 & E1 & F1).
  { rewrite nt_host_set_log. exact NT. }
  destruct (shared_step id ltype (set_log w (log w ++ pre))) as [[res1 id1] w2].
  cbn [fst snd log set_log] in E1, F1.
  destruct (appends_lock_tail id1 ltype res1 w2) as [post2 E2].
  exists pre, rnd, lk, (post1 ++ post2).
  split; [| split; [| apply shared_byte_range]].
  - unfold world_of. rewrite E2, E1, <- !app_assoc. reflexivity.
  - unfold fd_of. rewrite lock_tail_sharedLockByte, F1. reflexivity.
Qed.

Lemma sqlite3OsLock_legacy_shared_byte_witness :
  (nt_host (world_95 (host_random (-5))) = false /\
   SHARED_LOCK <= SHARED_LOCK /\
   locktype (fd_at NO_LOCK) < SHARED_LOCK /\
   fst (pending_loop 4 (h (fd_at NO_LOCK)) 1 (world_95 (host_random (-5)))) <> 0)
  /\
  exists (pre : list Event) (rnd lk : Reply) (post : list Event),
    log (world_of (sqlite3OsLock (fd_at NO_LOCK) SHARED_LOCK
                     (world_95 (host_random (-5))))) =
    log (world_95 (host_random (-5))) ++ pre
      ++ [(sqlite3Randomness 4, rnd);
          (LockFile (h (fd_at NO_LOCK))
             (SHARED_FIRST + shared_byte (to_int (outv rnd))) 1, lk)]
      ++ post /\
    sharedLockByte (fd_of (sqlite3OsLock (fd_at NO_LOCK) SHARED_LOCK
                             (world_95 (host_random (-5)))))
    = shared_byte (to_int (outv rnd)) /\
    0 <= shared_byte (to_int (outv rnd)) <= SHARED_SIZE - 2.
Proof.
  assert (H1 : nt_host (world_95 (host_random (-5))) = false)
    by (vm_compute; reflexivity).
  assert (H2 : SHARED_LOCK <= SHARED_LOCK) by (vm_compute; discriminate).
  assert (H3 : locktype (fd_at NO_LOCK) < SHARED_LOCK) by reflexivity.
  assert (H4 : fst (pending_loop 4 (h (fd_at NO_LOCK)) 1
                      (world_95 (host_random (-5)))) <> 0)
    by (vm_compute; discriminate).
  split.
  - repeat split; assumption.
  - exact (sqlite3OsLock_legacy_shared_byte (fd_at NO_LOCK) SHARED_LOCK
             (world_95 (host_random (-5))) H1 H2 H3 (fun _ => H4)).
Defined.

(** ** Reading and writing *)

Lemma to_DWORD_range (x : Z) : 0 <= to_DWORD x < 2 ^ 32.
Proof. unfold to_DWORD. apply Z.mod_pos_bound. reflexivity. Qed.

Lemma bytes_read_nonneg (r : Reply) : 0 <= bytes_read r.
Proof.
  unfold bytes_read. destruct (rv r =? 0); [lia | apply to_DWORD_range].
Qed.

(** [sqlite3OsRead] with the test hook at rest: one [ReadFile] for [amt]
    bytes, and the result compares what it delivered with [(DWORD)amt]. *)
Lemma sqlite3OsRead_eq (id : OsFile) (pBuf amt : Z) (w : World) :
  io_error_hook w = false ->
  sqlite3OsRead id pBuf amt w =
  let c := ReadFile (h id) pBuf (to_DWORD amt) in
  let r := host w (log w) c in
  (if bytes_read r =? to_DWORD amt then SQLITE_OK else SQLITE_IOERR,
   set_log w (log w ++ [(c, r)])).
Proof.
  intros Hk. unfold sqlite3OsRead. exec. rewrite Hk. norm.
  unfold bytes_read.
  match goal with |- context [?b =? to_DWORD amt] =>
    destruct (b =? to_DWORD amt) end; reflexivity.
Qed.

(** C8 -- [sqlite3OsRead] of [amt] bytes (an [int]), the simulated-error hook
    at rest, issues one [ReadFile] for [amt] bytes at the current position;
    it answers [SQLITE_OK] when exactly [amt] bytes were read and
    [SQLITE_IOERR] when fewer were, a failed [ReadFile] counting as no byte
    read. *)
Theorem sqlite3OsRead_ok_iff_all_read :
  forall (id : OsFile) (pBuf amt : Z) (w : World),
    io_error_hook w = false ->
    - 2 ^ 31 <= amt < 2 ^ 31 ->
    exists r : Reply,
      log (snd (sqlite3OsRead id pBuf amt w)) =
      log w ++ [(ReadFile (h id) pBuf (to_DWORD amt), r)] /\
      (bytes_read r = amt -> fst (sqlite3OsRead id pBuf amt w) = SQLITE_OK) /\
      (bytes_read r < amt -> fst (sqlite3OsRead id pBuf amt w) = SQLITE_IOERR) /\
      (rv r = 0 -> 0 < amt -> fst (sqlite3OsRead id pBuf amt w) = SQLITE_IOERR).
Proof.
  intros id pBuf amt w Hk R.
  rewrite (sqlite3OsRead_eq id pBuf amt w Hk). norm.
  exists (host w (log w) (ReadFile (h id) pBuf (to_DWORD amt))).
  set (r := host w (log w) (ReadFile (h id) pBuf (to_DWORD amt))).
  assert (N := bytes_read_nonneg r).
  assert (D : 0 <= amt -> to_DWORD amt = amt)
    by (intros; unfold to_DWORD; apply Z.mod_small; lia).
  split; [reflexivity|]. repeat split.
  - intros E. rewrite D by lia. rewrite E, Z.eqb_refl. reflexivity.
  - intros E. rewrite D by lia.
    destruct (Z.eqb_spec (bytes_read r) amt); [lia | reflexivity].
  - intros F P. rewrite D by lia. unfold bytes_read. 
    apply Z.eqb_eq in F. rewrite F.
    destruct (Z.eqb_spec 0 amt); [lia | reflexivity].
Qed.

Lemma sqlite3OsRead_ok_iff_all_read_witness :
  (io_error_hook (world_NT host_refuses_all) = false /\
   - 2 ^ 31 <= 1024 < 2 ^ 31) /\
  exists r : Reply,
    log (snd (sqlite3OsRead (fd_at NO_LOCK) 4096 1024 (world_NT host_refuses_all))) =
    log (world_NT host_refuses_all)
      ++ [(ReadFile (h (fd_at NO_LOCK)) 4096 (to_DWORD 1024), r)] /\
    (bytes_read r = 1024 ->
     fst (sqlite3OsRead (fd_at NO_LOCK) 4096 1024 (world_NT host_refuses_all))
     = SQLITE_OK) /\
    (bytes_read r < 1024 ->
     fst (sqlite3OsRead (fd_at NO_LOCK) 4096 1024 (world_NT host_refuses_all))
     = SQLITE_IOERR) /\
    (rv r = 0 -> 0 < 1024 ->
     fst (sqlite3OsRead (fd_at NO_LOCK) 4096 1024 (world_NT host_refuses_all))
     = SQLITE_IOERR).
Proof.
  assert (H1 : io_error_hook (world_NT host_refuses_all) = false) by reflexivity.
  assert (H2 : - 2 ^ 31 <= 1024 < 2 ^ 31) by (vm_compute; split; congruence).
  split.
  - split; assumption.
  - exact (sqlite3OsRead_ok_iff_all_read (fd_at NO_LOCK) 4096 1024
             (world_NT host_refuses_all) H1 H2).
Defined.

(** [sqlite3OsWrite] of no byte, the test hook at rest: the loop is not
    entered, nothing is asked of the host, and the result is read off the two
    variables the loop would have assigned. *)
Lemma sqlite3OsWrite_nothing (rc0 wrote0 : Z) (fuel : nat)
    (id : OsFile) (pBuf : Z) (w : World) :
  io_error_hook w = false ->
  sqlite3OsWrite rc0 wrote0 fuel id pBuf 0 w =
  Some (if (rc0 =? 0) || (0 >? to_int wrote0) then SQLITE_FULL else SQLITE_OK, w).
Proof.
  intros Hk. unfold sqlite3OsWrite, SimulateIOError. rewrite Hk.
  destruct fuel; cbn [write_loop Z.gtb Z.compare];
    destruct ((rc0 =? 0) || (0 >? to_int wrote0)); reflexivity.
Qed.

(** C10 -- a write of 0 bytes issues no host call, but its result is not
    always [SQLITE_OK]: [rc] is read without ever having been assigned, and
    when it happens to hold 0 the function answers [SQLITE_FULL]. *)
Theorem sqlite3OsWrite_nothing_full :
  forall fuel : nat,
    sqlite3OsWrite 0 0 fuel (fd_at NO_LOCK) 4096 0 (world_NT host_grants_all)
    = Some (SQLITE_FULL, world_NT host_grants_all).
Proof.
  intros fuel. rewrite sqlite3OsWrite_nothing by reflexivity. reflexivity.
Qed.

(** ** Unlocking above SHARED *)

(** From RESERVED or PENDING, [sqlite3OsUnlock] issues no call on the shared
    pool: the reader lock taken on the way up stays with the host. *)
Lemma sqlite3OsUnlock_skips_read_lock (id : OsFile) (w : World) :
  RESERVED_LOCK <= locktype id < EXCLUSIVE_LOCK ->
  unlock_calls w id =
  (if locktype id >=? PENDING_LOCK then [UnlockFile (h id) PENDING_BYTE 1] else [])
  ++ [UnlockFile (h id) RESERVED_BYTE 1].
Proof.
  intros [R E]. unfold unlock_calls.
  destruct (Z.geb_spec (locktype id) EXCLUSIVE_LOCK); [lia|].
  destruct (Z.geb_spec (locktype id) RESERVED_LOCK); [|lia].
  destruct (Z.eqb_spec (locktype id) SHARED_LOCK); [levels; lia|].
  destruct (locktype id >=? PENDING_LOCK); reflexivity.
Qed.

(** C3 -- a descriptor on an uncontended modern host goes to SHARED, then to
    RESERVED, then unlocks.  Every call succeeds and the level ends at
    [NO_LOCK], yet the only range released by the unlock is [RESERVED_BYTE]:
    the reader lock on the shared pool, taken by the first request, is never
    released. *)
Theorem sqlite3OsUnlock_from_reserved_keeps_pool :
  map fst (log (snd (run_ops [OpLock SHARED_LOCK; OpLock RESERVED_LOCK; OpUnlock]
                       (fd_at NO_LOCK) (world_NT host_grants_all))))
  = [LockFile 7 PENDING_BYTE 1;
     LockFileEx 7 SHARED_FIRST SHARED_SIZE;
     UnlockFile 7 PENDING_BYTE 1;
     LockFileEx 7 RESERVED_BYTE 1;
     UnlockFile 7 RESERVED_BYTE 1] /\
  fst (fst (run_ops [OpLock SHARED_LOCK; OpLock RESERVED_LOCK; OpUnlock]
              (fd_at NO_LOCK) (world_NT host_grants_all)))
  = [(OpLock SHARED_LOCK, NO_LOCK, SQLITE_OK, SHARED_LOCK);
     (OpLock RESERVED_LOCK, SHARED_LOCK, SQLITE_OK, RESERVED_LOCK);
     (OpUnlock, RESERVED_LOCK, SQLITE_OK, NO_LOCK)].
Proof. split; vm_compute; reflexivity. Qed.

(** When no try obtains the byte, there were exactly four tries, each
    failed and each followed by a sleep of 1 ms. *)
Lemma pending_tries_exhausted (hd : Z) (evs : list Event) :
  pending_tries hd 4 evs false ->
  exists r1 s1 r2 s2 r3 s3 r4 s4 : Reply,
    rv r1 = 0 /\ rv r2 = 0 /\ rv r3 = 0 /\ rv r4 = 0 /\
    evs = [(LockFile hd PENDING_BYTE 1, r1); (Sleep 1, s1);
           (LockFile hd PENDING_BYTE 1, r2); (Sleep 1, s2);
           (LockFile hd PENDING_BYTE 1, r3); (Sleep 1, s3);
           (LockFile hd PENDING_BYTE 1, r4); (Sleep 1, s4)].
Proof.
  intros T.
  inversion T as [| |n1 r1 s1 e1 g1 F1 T1]; subst.
  inversion T1 as [| |n2 r2 s2 e2 g2 F2 T2]; subst.
  inversion T2 as [| |n3 r3 s3 e3 g3 F3 T3]; subst.
  inversion T3 as [| |n4 r4 s4 e4 g4 F4 T4]; subst.
  inversion T4; subst.
  exists r1, s1, r2, s2, r3, s3, r4, s4. repeat split; assumption.
Qed.

(* ================================================================== *)
(** * Further properties of the locking code *)

(** ** Worlds along a computation *)

Ltac steps_intro :=
  split; [norm; reflexivity | split; [norm; reflexivity | norm]].

Lemma steps_refl (P : Event -> Prop) (w : World) : steps_to P w w.
Proof.
  repeat split. exists []. split; [symmetry; apply app_nil_r | constructor].
Qed.

Lemma steps_trans (P : Event -> Prop) (w1 w2 w3 : World) :
  steps_to P w1 w2 -> steps_to P w2 w3 -> steps_to P w1 w3.
Proof.
  intros (H1 & N1 & e1 & L1 & F1) (H2 & N2 & e2 & L2 & F2).
  split; [congruence|]. split; [congruence|].
  exists (e1 ++ e2). split.
  - rewrite L2, L1. symmetry. apply app_assoc.
  - apply Forall_app. split; assumption.
Qed.

Lemma steps_weaken (P Q : Event -> Prop) (w w' : World) :
  (forall e, P e -> Q e) -> steps_to P w w' -> steps_to Q w w'.
Proof.
  intros PQ (H1 & N1 & e1 & L1 & F1). repeat split; auto.
  exists e1. split; [exact L1|]. eapply Forall_impl; eauto.
Qed.

Lemma steps_call (P : Event -> Prop) (c : HostCall) (w : World) :
  P (c, host w (log w) c) -> steps_to P w (snd (call c w)).
Proof.
  intros Pc. rewrite call_eq. steps_intro.
  eexists. split; [reflexivity|]. constructor; [exact Pc | constructor].
Qed.

Lemma steps_warmed (P : Event -> Prop) (w : World) (l : list Event) :
  Forall P l -> steps_to P w (set_log (warmed w) (log w ++ l)).
Proof.
  intros F. steps_intro.
  exists l. split; [reflexivity | exact F].
Qed.

Lemma steps_getReadLock (P : Event -> Prop) (hd i n : Z) (w : World) :
  (forall r, P (read_lock_call w hd i n, r)) ->
  steps_to P w (snd (getReadLock hd i n w)).
Proof.
  intros Pc. rewrite getReadLock_eq. cbn [snd].
  apply steps_warmed. constructor; [apply Pc | constructor].
Qed.

Lemma steps_unlockReadLock (P : Event -> Prop) (id : OsFile) (w : World) :
  (forall r, P (read_unlock_call w id, r)) ->
  steps_to P w (snd (unlockReadLock id w)).
Proof.
  intros Pc. rewrite unlockReadLock_eq. cbn [snd].
  apply steps_warmed. constructor; [apply Pc | constructor].
Qed.

Lemma pending_tries_Forall (P : Event -> Prop) (hd : Z) (n : nat)
    (evs : list Event) (got : bool) :
  (forall r, P (LockFile hd PENDING_BYTE 1, r)) ->
  (forall r, P (Sleep 1, r)) ->
  pending_tries hd n evs got -> Forall P evs.
Proof.
  intros PL PS T. induction T; repeat constructor; auto.
Qed.

Lemma steps_pending_loop (P : Event -> Prop) (cnt : nat) (hd res : Z) (w : World) :
  (forall r, P (LockFile hd PENDING_BYTE 1, r)) ->
  (forall r, P (Sleep 1, r)) ->
  steps_to P w (snd (pending_loop cnt hd res w)).
Proof.
  intros PL PS.
  destruct (pending_loop_spec cnt hd res w) as (evs & got & T & W & _).
  rewrite W. steps_intro.
  exists evs. split; [reflexivity|]. eapply pending_tries_Forall; eauto.
Qed.

Lemma read_lock_call_nt (w w' : World) (hd i n : Z) :
  nt_host w' = nt_host w -> read_lock_call w' hd i n = read_lock_call w hd i n.
Proof. intros E. unfold read_lock_call. rewrite E. reflexivity. Qed.

Lemma read_unlock_call_nt (w w' : World) (id : OsFile) :
  nt_host w' = nt_host w -> read_unlock_call w' id = read_unlock_call w id.
Proof. intros E. unfold read_unlock_call. rewrite E. reflexivity. Qed.

Lemma read_unlock_call_byte (w : World) (id id1 : OsFile) :
  h id1 = h id -> sharedLockByte id1 = sharedLockByte id ->
  read_unlock_call w id1 = read_unlock_call w id.
Proof. intros E1 E2. unfold read_unlock_call. rewrite E1, E2. reflexivity. Qed.

(** The SHARED step: what it issues and what it leaves in the descriptor. *)
Lemma steps_shared_step (P : Event -> Prop) (id : OsFile) (ltype : Z) (w : World) :
  (nt_host w = true ->
   forall r, P (LockFileEx (h id) SHARED_FIRST SHARED_SIZE, r)) ->
  (nt_host w = false -> forall r, P (sqlite3Randomness 4, r)) ->
  (nt_host w = false -> forall b r, 0 <= b <= SHARED_SIZE - 2 ->
   P (LockFile (h id) (SHARED_FIRST + b) 1, r)) ->
  (ltype < PENDING_LOCK -> forall r, P (UnlockFile (h id) PENDING_BYTE 1, r)) ->
  steps_to P w (snd (shared_step id ltype w)) /\
  (nt_host w = true -> snd (fst (shared_step id ltype w)) = id) /\
  (nt_host w = false -> byte_ok (snd (fst (shared_step id ltype w)))).
Proof.
  intros P1 P2 P3 P4. unfold shared_step. exec.
  destruct (nt_host w) eqn:NT; norm.
  - rewrite getReadLock_eq. norm. unfold read_lock_call. rewrite NT.
    destruct (Z.ltb_spec ltype PENDING_LOCK) as [L|L]; norm;
      (split; [| split; [reflexivity | discriminate]]);
      (steps_intro; eexists; split; [solve_log|]);
      repeat constructor; auto.
  - rewrite !shared_byte_eq.
    rewrite !shared_offset_no_wrap by apply shared_byte_range.
    destruct (Z.ltb_spec ltype PENDING_LOCK) as [L|L]; norm;
      (split; [| split; [discriminate | intros _; apply shared_byte_range]]);
      (steps_intro; eexists; split; [solve_log|]);
      repeat constructor; auto using shared_byte_range.
Qed.

Lemma steps_exclusive_step (P : Event -> Prop) (id : OsFile) (res : Z) (w : World) :
  (SHARED_LOCK <= locktype id -> forall r, P (read_unlock_call w id, r)) ->
  (forall r, P (LockFile (h id) SHARED_FIRST SHARED_SIZE, r)) ->
  steps_to P w (snd (exclusive_step id res w)).
Proof.
  intros P1 P2. unfold exclusive_step. unfold bind at 1.
  assert (S : steps_to P w
                (snd ((if locktype id >=? SHARED_LOCK
                       then unlockReadLock id else ret res) w))).
  { destruct (Z.geb_spec (locktype id) SHARED_LOCK) as [G|G].
    - apply steps_unlockReadLock. auto.
    - apply steps_refl. }
  destruct ((if locktype id >=? SHARED_LOCK
             then unlockReadLock id else ret res) w) as [res1 w1].
  cbn [snd] in S.
  destruct (negb (res1 =? 0)); [| exact S].
  eapply steps_trans; [exact S|].
  unfold bind, ret.
  pose proof (steps_call P (LockFile (h id) SHARED_FIRST SHARED_SIZE) w1 (P2 _))
    as S2.
  rewrite call_eq in S2. cbn [snd] in S2. exact S2.
Qed.

Lemma steps_lock_tail (P : Event -> Prop) (id : OsFile) (ltype res : Z) (w : World) :
  (RESERVED_LOCK <= ltype -> locktype id < RESERVED_LOCK ->
   forall r, P (read_lock_call w (h id) RESERVED_BYTE 1, r)) ->
  (ltype = EXCLUSIVE_LOCK -> SHARED_LOCK <= locktype id ->
   forall r, P (read_unlock_call w id, r)) ->
  (ltype = EXCLUSIVE_LOCK ->
   forall r, P (LockFile (h id) SHARED_FIRST SHARED_SIZE, r)) ->
  steps_to P w (snd (lock_tail id ltype res w)).
Proof.
  intros P1 P2 P3. unfold lock_tail. unfold bind at 1.
  match goal with |- context [ (if ?c then ?a else ?e) w ] =>
    assert (S1 : steps_to P w (snd ((if c then a else e) w)));
    [ destruct c eqn:C; [| apply steps_refl]
    | destruct ((if c then a else e) w) as [res2 w2] ]
  end.
  { apply andb_true_iff in C. destruct C as [C _].
    apply andb_true_iff in C. destruct C as [C1 C2].
    apply Z.geb_le in C1. apply Z.ltb_lt in C2.
    apply steps_getReadLock. auto. }
  cbn [snd] in S1. unfold bind at 1.
  match goal with |- context [ (if ?c then ?a else ?e) w2 ] =>
    assert (S2 : steps_to P w2 (snd ((if c then a else e) w2)));
    [ destruct (Z.eqb_spec ltype EXCLUSIVE_LOCK) as [E|E]; [| apply steps_refl]
    | destruct ((if c then a else e) w2) as [res3 w3] ]
  end.
  { destruct S1 as (_ & N1 & _).
    apply steps_exclusive_step.
    - intros G r. rewrite (read_unlock_call_nt w w2 id N1). auto.
    - auto. }
  cbn [snd] in S2.
  destruct (negb (res3 =? 0)); cbn [ret snd];
    eapply steps_trans; eassumption.
Qed.

(** The rest of [sqlite3OsLock] ends with the level set, or with the
    descriptor it was given. *)
Lemma lock_tail_result (id1 : OsFile) (ltype res : Z) (w : World) :
  exists ok : bool,
    fst (lock_tail id1 ltype res w) =
    if ok then (SQLITE_OK, set_locktype id1 ltype) else (SQLITE_BUSY, id1).
Proof.
  unfold lock_tail. unfold bind at 1.
  match goal with |- context [ (if ?c then ?a else ?e) w ] =>
    destruct ((if c then a else e) w) as [res2 w3]
  end.
  unfold bind at 1.
  match goal with |- context [ (if ?c then ?a else ?e) w3 ] =>
    destruct ((if c then a else e) w3) as [res3 w4]
  end.
  exists (negb (res3 =? 0)).
  destruct (negb (res3 =? 0)); reflexivity.
Qed.

(** With [res] at 0 and no reader lock to release, the rest of
    [sqlite3OsLock] does nothing but answer [SQLITE_BUSY]. *)
Lemma lock_tail_zero (id : OsFile) (ltype : Z) (w : World) :
  locktype id < SHARED_LOCK ->
  lock_tail id ltype 0 w = (SQLITE_BUSY, id, w).
Proof.
  intros L. unfold lock_tail. rewrite andb_false_r. exec.
  destruct (ltype =? EXCLUSIVE_LOCK); norm; [| reflexivity].
  unfold exclusive_step. exec.
  destruct (Z.geb_spec (locktype id) SHARED_LOCK); [lia | reflexivity].
Qed.

(** Every call [sqlite3OsLock] issues past its first test is one of
    [lock_may_issue]; the host and its variant stay what they were. *)
Lemma sqlite3OsLock_alphabet (P : Event -> Prop) (id : OsFile) (ltype : Z)
    (w : World) :
  locktype id < ltype ->
  (forall c r, lock_may_issue w id ltype c -> P (c, r)) ->
  steps_to P w (world_of (sqlite3OsLock id ltype w)).
Proof.
  intros G HP. rewrite (sqlite3OsLock_steps id ltype w G).
  (* the PENDING pre-lock *)
  match goal with |- context [ (if ?c then ?a else ?e) w ] =>
    assert (S1 : steps_to P w (snd ((if c then a else e) w)));
    [ destruct c eqn:C; [| apply steps_refl]
    | destruct ((if c then a else e) w) as [res w1] ]
  end.
  { assert (C' : locktype id = NO_LOCK \/ ltype = PENDING_LOCK).
    { apply orb_true_iff in C. destruct C as [C|C]; apply Z.eqb_eq in C; auto. }
    apply steps_pending_loop; intros r; apply HP; left; auto. }
  cbn [snd] in S1. pose proof S1 as (_ & N1 & _).
  (* the SHARED step *)
  match goal with |- context [ (if ?c then ?a else ?e) w1 ] =>
    assert (S2 : steps_to P w1 (snd ((if c then a else e) w1)) /\
                 h (snd (fst ((if c then a else e) w1))) = h id /\
                 locktype (snd (fst ((if c then a else e) w1))) = locktype id /\
                 (SHARED_LOCK <= locktype id ->
                  snd (fst ((if c then a else e) w1)) = id));
    [ destruct c eqn:C
    | destruct ((if c then a else e) w1) as [[res1 id1] w2] ]
  end.
  { apply andb_true_iff in C. destruct C as [C _].
    apply andb_true_iff in C. destruct C as [C1 C2].
    apply Z.geb_le in C1. apply Z.ltb_lt in C2.
    split; [| split; [apply shared_step_fd | split; [apply shared_step_fd | lia]]].
    apply steps_shared_step; rewrite ?N1; intros.
    - apply HP. right. left. repeat split; auto.
    - apply HP. right. left. repeat split; auto.
    - apply HP. right. left. repeat split; auto.
      right. left. split; auto. right. eauto.
    - apply HP. right. left. repeat split; auto. }
  { cbn [ret fst snd]. split; [apply steps_refl | auto]. }
  cbn [fst snd] in S2. destruct S2 as (S2 & Hh & Hl & Hi).
  pose proof S2 as (_ & N2 & _).
  (* the rest *)
  unfold world_of.
  eapply steps_trans; [exact S1|]. eapply steps_trans; [exact S2|].
  assert (N : nt_host w2 = nt_host w) by congruence.
  apply steps_lock_tail; rewrite ?Hh, ?Hl.
  - intros R1 R2 r. rewrite (read_lock_call_nt w w2 _ _ _ N).
    apply HP. right. right. left. auto.
  - intros E S r. rewrite (Hi S). rewrite (read_unlock_call_nt w w2 _ N).
    apply HP. right. right. right. auto.
  - intros E r. apply HP. right. right. right. auto.
Qed.

(** ** A host without contention *)

Lemma uncontended_steps (P : Event -> Prop) (w w' : World) :
  steps_to P w w' -> uncontended w -> uncontended w'.
Proof. intros (H & _) U l c. rewrite H. apply U. Qed.

Lemma pending_part_uncontended (b : bool) (hd : Z) (w : World) :
  uncontended w ->
  fst ((if b then pending_loop 4 hd 1 else ret 1) w) <> 0.
Proof.
  intros U. destruct b; [| discriminate].
  cbn [pending_loop]. exec.
  destruct (Z.eqb_spec (rv (host w (log w) (LockFile hd PENDING_BYTE 1))) 0)
    as [E|E]; [destruct (U _ _ E) | exact E].
Qed.

Lemma shared_step_uncontended (id : OsFile) (ltype : Z) (w : World) :
  uncontended w -> fst (fst (shared_step id ltype w)) <> 0.
Proof.
  intros U. unfold shared_step. exec.
  destruct (nt_host w); norm; rewrite ?getReadLock_eq; norm;
    destruct (ltype <? PENDING_LOCK); norm; apply U.
Qed.

Lemma exclusive_step_uncontended (id : OsFile) (res : Z) (w : World) :
  uncontended w -> res <> 0 -> fst (exclusive_step id res w) <> 0.
Proof.
  intros U R. unfold exclusive_step. exec.
  destruct (locktype id >=? SHARED_LOCK); norm; rewrite ?unlockReadLock_eq; norm.
  - destruct (Z.eqb_spec
                (rv (host w (log w) (read_unlock_call w id))) 0) as [E|E];
      [destruct (U _ _ E) | cbn [negb]; norm; apply U].
  - destruct (Z.eqb_spec res 0); [contradiction | cbn [negb]; norm; apply U].
Qed.

Lemma lock_tail_uncontended (id : OsFile) (ltype res : Z) (w : World) :
  uncontended w -> res <> 0 ->
  fst (lock_tail id ltype res w) = (SQLITE_OK, set_locktype id ltype).
Proof.
  intros U R. unfold lock_tail. unfold bind at 1.
  match goal with |- context [ (if ?c then ?a else ?e) w ] =>
    assert (S1 : steps_to any_event w (snd ((if c then a else e) w)) /\
                 fst ((if c then a else e) w) <> 0);
    [ destruct c
    | destruct ((if c then a else e) w) as [res2 w2] ]
  end.
  { split; [apply steps_getReadLock; exact (fun _ => I) |].
    rewrite getReadLock_eq. apply U. }
  { split; [apply steps_refl | exact R]. }
  cbn [fst snd] in S1. destruct S1 as [S1 R2].
  pose proof (uncontended_steps _ _ _ S1 U) as U2.
  unfold bind at 1.
  match goal with |- context [ (if ?c then ?a else ?e) w2 ] =>
    assert (S2 : fst ((if c then a else e) w2) <> 0);
    [ destruct c; [apply exclusive_step_uncontended; assumption | exact R2]
    | destruct ((if c then a else e) w2) as [res3 w3] ]
  end.
  cbn [fst] in S2.
  destruct (Z.eqb_spec res3 0); [contradiction | reflexivity].
Qed.

Lemma sqlite3OsLock_uncontended_ok (id : OsFile) (ltype : Z) (w : World) :
  uncontended w ->
  locktype id < ltype ->
  rc_of (sqlite3OsLock id ltype w) = SQLITE_OK /\
  locktype (fd_of (sqlite3OsLock id ltype w)) = ltype /\
  uncontended (world_of (sqlite3OsLock id ltype w)).
Proof.
  intros U G.
  assert (S : steps_to any_event w (world_of (sqlite3OsLock id ltype w)))
    by (apply sqlite3OsLock_alphabet; [exact G | intros; exact I]).
  pose proof (uncontended_steps _ _ _ S U) as U'.
  cut (exists id1, fst (sqlite3OsLock id ltype w)
                   = (SQLITE_OK, set_locktype id1 ltype)).
  { intros [id1 E]. unfold rc_of, fd_of. rewrite E. auto. }
  rewrite (sqlite3OsLock_steps id ltype w G).
  pose proof (pending_part_uncontended
                ((locktype id =? NO_LOCK) || (ltype =? PENDING_LOCK))
                (h id) w U) as R1.
  match goal with |- context [ (if ?c then ?a else ?e) w ] =>
    assert (S1 : steps_to any_event w (snd ((if c then a else e) w)));
    [ destruct c; [apply steps_pending_loop; intros; exact I | apply steps_refl]
    | destruct ((if c then a else e) w) as [res w1] ]
  end.
  cbn [fst snd] in R1, S1.
  pose proof (uncontended_steps _ _ _ S1 U) as U1.
  match goal with |- context [ (if ?c then ?a else ?e) w1 ] =>
    assert (S2 : steps_to any_event w1 (snd ((if c then a else e) w1)) /\
                 fst (fst ((if c then a else e) w1)) <> 0);
    [ destruct c
    | destruct ((if c then a else e) w1) as [[res1 id1] w2] ]
  end.
  { split; [| apply shared_step_uncontended; exact U1].
    apply steps_shared_step; intros; exact I. }
  { split; [apply steps_refl | exact R1]. }
  cbn [fst snd] in S2. destruct S2 as [S2 R2].
  pose proof (uncontended_steps _ _ _ S2 U1) as U2.
  exists id1. apply lock_tail_uncontended; assumption.
Qed.

(** [sqlite3OsUnlock] issues the calls of [unlock_calls] and nothing else. *)
Lemma steps_sqlite3OsUnlock (P : Event -> Prop) (id : OsFile) (w : World) :
  (forall c r, In c (unlock_calls w id) -> P (c, r)) ->
  steps_to P w (world_of (sqlite3OsUnlock id w)) /\
  fst (sqlite3OsUnlock id w) = (SQLITE_OK, set_locktype id NO_LOCK).
Proof.
  unfold sqlite3OsUnlock, unlock_calls. exec.
  destruct (locktype id >=? EXCLUSIVE_LOCK); norm;
  destruct (locktype id >=? PENDING_LOCK); norm;
  destruct (locktype id >=? RESERVED_LOCK); norm;
  destruct (locktype id =? SHARED_LOCK); norm;
  rewrite ?unlockReadLock_eq; norm; intros HP;
  (split; [| reflexivity]);
  (steps_intro; eexists; split; [solve_log |]);
  repeat constructor; apply HP; cbn [app In]; auto 10.
Qed.

Lemma uncontended_grants_all (osT plat : Z) (hook : bool) (l : list Event) :
  uncontended (mkWorld osT plat hook host_grants_all l).
Proof. intros l' c. cbn. discriminate. Qed.

(** On a host without contention, a request above the level held
    succeeds: the result is [SQLITE_OK] and the level becomes the request. *)
Theorem sqlite3OsLock_uncontended :
  forall (id : OsFile) (ltype : Z) (w : World),
    uncontended w ->
    locktype id < ltype ->
    rc_of (sqlite3OsLock id ltype w) = SQLITE_OK /\
    locktype (fd_of (sqlite3OsLock id ltype w)) = ltype.
Proof.
  intros id ltype w U G.
  destruct (sqlite3OsLock_uncontended_ok id ltype w U G) as (A & B & _). auto.
Qed.

Lemma sqlite3OsLock_uncontended_witness :
  (uncontended (world_95 host_grants_all) /\
   locktype (fd_at NO_LOCK) < EXCLUSIVE_LOCK) /\
  rc_of (sqlite3OsLock (fd_at NO_LOCK) EXCLUSIVE_LOCK (world_95 host_grants_all))
  = SQLITE_OK /\
  locktype (fd_of (sqlite3OsLock (fd_at NO_LOCK) EXCLUSIVE_LOCK
                     (world_95 host_grants_all))) = EXCLUSIVE_LOCK.
Proof.
  assert (H1 : uncontended (world_95 host_grants_all))
    by apply uncontended_grants_all.
  assert (H2 : locktype (fd_at NO_LOCK) < EXCLUSIVE_LOCK) by reflexivity.
  split; [split; assumption |].
  exact (sqlite3OsLock_uncontended (fd_at NO_LOCK) EXCLUSIVE_LOCK
           (world_95 host_grants_all) H1 H2).
Defined.

Lemma run_op_uncontended (op : LockOp) (id : OsFile) (w : World) :
  uncontended w ->
  rc_of (run_op op id w) = SQLITE_OK /\
  locktype (fd_of (run_op op id w)) = level_after [op] (locktype id) /\
  uncontended (world_of (run_op op id w)).
Proof.
  intros U. destruct op as [ltype|]; cbn [run_op level_after fold_left].
  - destruct (Z.le_gt_cases ltype (locktype id)) as [G|G].
    + rewrite (sqlite3OsLock_early id ltype w G).
      cbn [rc_of fd_of world_of fst snd]. repeat split; auto. lia.
    + destruct (sqlite3OsLock_uncontended_ok id ltype w U G) as (A & B & C).
      repeat split; auto. lia.
  - destruct (steps_sqlite3OsUnlock any_event id w (fun _ _ _ => I)) as [S E].
    unfold rc_of, fd_of. rewrite E. cbn [fst snd set_locktype locktype].
    repeat split. eapply uncontended_steps; eauto.
Qed.

(** X1 -- on a host without contention, along every sequence of lock
    requests and unlocks each operation answers [SQLITE_OK], and the level
    of the descriptor follows the rule of the state machine: a request
    raises it to the maximum of the level held and the level asked, an
    unlock drops it to [NO_LOCK]. *)
Theorem run_ops_uncontended :
  forall (ops : list LockOp) (id : OsFile) (w : World),
    uncontended w ->
    map op_of (fst (fst (run_ops ops id w))) = ops /\
    Forall (fun e => rc_in e = SQLITE_OK) (fst (fst (run_ops ops id w))) /\
    locktype (snd (fst (run_ops ops id w))) = level_after ops (locktype id).
Proof.
  induction ops as [|op ops IH]; intros id w U.
  - repeat split. constructor.
  - cbn [run_ops].
    destruct (run_op_uncontended op id w U) as (A & B & C).
    unfold rc_of, fd_of, world_of in A, B, C.
    destruct (run_op op id w) as [[rc id1] w1]. cbn [fst snd] in A, B, C.
    specialize (IH id1 w1 C).
    destruct (run_ops ops id1 w1) as [[hist id2] w2]. cbn [fst snd] in *.
    destruct IH as (IHm & IHf & IHl). repeat split.
    + cbn [map op_of fst]. rewrite IHm. reflexivity.
    + constructor; [exact A | exact IHf].
    + rewrite IHl, B. reflexivity.
Qed.

Lemma run_ops_uncontended_witness :
  uncontended (world_NT host_grants_all) /\
  map op_of (fst (fst (run_ops [OpLock SHARED_LOCK; OpLock EXCLUSIVE_LOCK;
                                OpLock RESERVED_LOCK; OpUnlock; OpLock SHARED_LOCK]
                         (fd_at NO_LOCK) (world_NT host_grants_all))))
  = [OpLock SHARED_LOCK; OpLock EXCLUSIVE_LOCK; OpLock RESERVED_LOCK; OpUnlock;
     OpLock SHARED_LOCK] /\
  Forall (fun e => rc_in e = SQLITE_OK)
    (fst (fst (run_ops [OpLock SHARED_LOCK; OpLock EXCLUSIVE_LOCK;
                        OpLock RESERVED_LOCK; OpUnlock; OpLock SHARED_LOCK]
                 (fd_at NO_LOCK) (world_NT host_grants_all)))) /\
  locktype (snd (fst (run_ops [OpLock SHARED_LOCK; OpLock EXCLUSIVE_LOCK;
                               OpLock RESERVED_LOCK; OpUnlock; OpLock SHARED_LOCK]
                        (fd_at NO_LOCK) (world_NT host_grants_all))))
  = level_after [OpLock SHARED_LOCK; OpLock EXCLUSIVE_LOCK; OpLock RESERVED_LOCK;
                 OpUnlock; OpLock SHARED_LOCK] (locktype (fd_at NO_LOCK)).
Proof.
  assert (H1 : uncontended (world_NT host_grants_all))
    by apply uncontended_grants_all.
  split; [exact H1 |].
  exact (run_ops_uncontended _ (fd_at NO_LOCK) (world_NT host_grants_all) H1).
Defined.

(** ** What a failed request leaves behind *)

(** X2 -- a request for PENDING or EXCLUSIVE by a descriptor below SHARED
    never issues an [UnlockFile]: when it answers [SQLITE_BUSY], whatever it
    obtained on the way (PENDING byte, reader lock, RESERVED byte) stays
    locked by the host. *)
Theorem sqlite3OsLock_high_request_never_unlocks :
  forall (id : OsFile) (ltype : Z) (w : World),
    locktype id < SHARED_LOCK ->
    PENDING_LOCK <= ltype ->
    exists evs : list Event,
      log (world_of (sqlite3OsLock id ltype w)) = log w ++ evs /\
      Forall not_unlock evs.
Proof.
  intros id ltype w L G.
  assert (S : steps_to not_unlock w (world_of (sqlite3OsLock id ltype w))).
  { apply sqlite3OsLock_alphabet; [levels; lia |].
    intros c r M. unfold not_unlock. cbn [fst].
    destruct M as [[_ [E|E]] | [(_ & _ & [[_ E] | [[_ [E | (b & _ & E)]] | [C E]]])
                  | [(_ & _ & E) | [_ [[C E] | E]]]]];
      subst c; try exact I; try (levels; lia).
    unfold read_lock_call. destruct (nt_host w); exact I. }
  destruct S as (_ & _ & S). exact S.
Qed.

Lemma sqlite3OsLock_high_request_never_unlocks_witness :
  (locktype (fd_at NO_LOCK) < SHARED_LOCK /\ PENDING_LOCK <= EXCLUSIVE_LOCK) /\
  exists evs : list Event,
    log (world_of (sqlite3OsLock (fd_at NO_LOCK) EXCLUSIVE_LOCK
                     (world_NT host_pool_busy)))
    = log (world_NT host_pool_busy) ++ evs /\
    Forall not_unlock evs.
Proof.
  assert (H1 : locktype (fd_at NO_LOCK) < SHARED_LOCK) by reflexivity.
  assert (H2 : PENDING_LOCK <= EXCLUSIVE_LOCK) by (vm_compute; discriminate).
  split; [split; assumption |].
  exact (sqlite3OsLock_high_request_never_unlocks (fd_at NO_LOCK) EXCLUSIVE_LOCK
           (world_NT host_pool_busy) H1 H2).
Defined.

(** The SHARED step of a request below PENDING ends with the release of the
    PENDING byte, whatever the reader lock answered. *)
Lemma shared_step_releases_pending (id : OsFile) (ltype : Z) (w : World) :
  ltype < PENDING_LOCK ->
  exists (pre : list Event) (u : Reply),
    log (snd (shared_step id ltype w)) =
    log w ++ pre ++ [(UnlockFile (h id) PENDING_BYTE 1, u)].
Proof.
  intros L. unfold shared_step. exec.
  destruct (Z.ltb_spec ltype PENDING_LOCK); [| lia].
  destruct (nt_host w); norm; rewrite ?getReadLock_eq; norm; name_replies.
  - eexists [_], _. solve_log.
  - eexists [_; _], _. solve_log.
Qed.

(** X3 -- a request for SHARED or RESERVED by a descriptor below SHARED that
    reaches the SHARED step gives the PENDING byte back before it returns,
    whether or not the reader lock was obtained, and does not take it again. *)
Theorem sqlite3OsLock_low_request_releases_pending :
  forall (id : OsFile) (ltype : Z) (w : World),
    locktype id < SHARED_LOCK ->
    SHARED_LOCK <= ltype < PENDING_LOCK ->
    (locktype id = NO_LOCK ->
     fst (pending_loop 4 (h id) 1 w) <> 0) ->
    exists (pre : list Event) (u : Reply) (post : list Event),
      log (world_of (sqlite3OsLock id ltype w)) =
      log w ++ pre ++ [(UnlockFile (h id) PENDING_BYTE 1, u)] ++ post /\
      Forall (not_pending_lock (h id)) post.
Proof.
  intros id ltype w L [S G] P.
  rewrite (sqlite3OsLock_steps id ltype w) by lia.
  assert (NP : (ltype =? PENDING_LOCK) = false) by (apply Z.eqb_neq; lia).
  rewrite NP, orb_false_r.
  assert (A : exists evs,
             snd ((if locktype id =? NO_LOCK
                   then pending_loop 4 (h id) 1 else ret 1) w)
             = set_log w (log w ++ evs) /\
             fst ((if locktype id =? NO_LOCK
                   then pending_loop 4 (h id) 1 else ret 1) w) <> 0).
  { destruct (Z.eqb_spec (locktype id) NO_LOCK) as [C|C].
    - destruct (pending_loop_spec 4 (h id) 1 w) as (evs & got & _ & W & _).
      exists evs. split; [exact W | auto].
    - exists []. cbn [ret fst snd]. rewrite app_nil_r, set_log_log.
      split; [reflexivity | discriminate]. }
  destruct A as (pre & W & R).
  destruct ((if locktype id =? NO_LOCK
             then pending_loop 4 (h id) 1 else ret 1) w) as [res w1].
  cbn [fst snd] in W, R. subst w1.
  assert (C : (ltype >=? SHARED_LOCK) && (locktype id <? SHARED_LOCK)
              && negb (res =? 0) = true).
  { rewrite !andb_true_iff. repeat split.
    - apply Z.geb_le. exact S.
    - apply Z.ltb_lt. exact L.
    - apply negb_true_iff, Z.eqb_neq. exact R. }
  rewrite C.
  destruct (shared_step_releases_pending id ltype (set_log w (log w ++ pre)) G)
    as (mid & u & E1).
  pose proof (shared_step_fd id ltype (set_log w (log w ++ pre))) as [Hh Hl].
  destruct (shared_step id ltype (set_log w (log w ++ pre))) as [[res1 id1] w2].
  cbn [fst snd log set_log] in E1, Hh, Hl.
  assert (T : steps_to (not_pending_lock (h id)) w2
                (snd (lock_tail id1 ltype res1 w2))).
  { apply steps_lock_tail; rewrite ?Hh.
    - intros _ _ r. unfold not_pending_lock, read_lock_call. cbn [fst].
      destruct (nt_host w2); [discriminate |].
      intros E. injection E as E. revert E. vm_compute. discriminate.
    - intros E. levels. lia.
    - intros E. levels. lia. }
  destruct T as (_ & _ & post & E2 & F).
  exists (pre ++ mid), u, post. split; [| exact F].
  unfold world_of. rewrite E2, E1, <- !app_assoc. reflexivity.
Qed.

Lemma sqlite3OsLock_low_request_releases_pending_witness :
  (locktype (fd_at NO_LOCK) < SHARED_LOCK /\
   SHARED_LOCK <= RESERVED_LOCK < PENDING_LOCK /\
   fst (pending_loop 4 (h (fd_at NO_LOCK)) 1 (world_NT host_pool_busy)) <> 0) /\
  exists (pre : list Event) (u : Reply) (post : list Event),
    log (world_of (sqlite3OsLock (fd_at NO_LOCK) RESERVED_LOCK
                     (world_NT host_pool_busy))) =
    log (world_NT host_pool_busy)
      ++ pre ++ [(UnlockFile (h (fd_at NO_LOCK)) PENDING_BYTE 1, u)] ++ post /\
    Forall (not_pending_lock (h (fd_at NO_LOCK))) post.
Proof.
  assert (H1 : locktype (fd_at NO_LOCK) < SHARED_LOCK) by reflexivity.
  assert (H2 : SHARED_LOCK <= RESERVED_LOCK < PENDING_LOCK)
    by (split; [vm_compute; discriminate | reflexivity]).
  assert (H3 : fst (pending_loop 4 (h (fd_at NO_LOCK)) 1
                      (world_NT host_pool_busy)) <> 0)
    by (vm_compute; discriminate).
  split; [repeat split; solve [assumption | apply H2] |].
  exact (sqlite3OsLock_low_request_releases_pending (fd_at NO_LOCK)
           RESERVED_LOCK (world_NT host_pool_busy) H1 H2 (fun _ => H3)).
Defined.

(** ** The locking code stays inside the lock bytes *)

Lemma lock_bytes_layout :
  PENDING_BYTE = 4294957056 /\ RESERVED_BYTE = PENDING_BYTE + 1 /\
  SHARED_FIRST = RESERVED_BYTE + 1 /\ SHARED_FIRST + SHARED_SIZE = 2 ^ 32.
Proof. repeat split. Qed.

Lemma read_unlock_call_in_region (w : World) (id : OsFile) (r : Reply) :
  nt_host w = true \/ byte_ok id ->
  in_lock_region (h id) (read_unlock_call w id, r).
Proof.
  intros I. unfold in_lock_region, read_unlock_call. cbn [fst].
  destruct lock_bytes_layout as (A & B & C & D).
  destruct (nt_host w) eqn:NT.
  - unfold SHARED_SIZE in *. lia.
  - destruct I as [I|I]; [discriminate|].
    rewrite shared_offset_no_wrap by exact I.
    unfold byte_ok in I. unfold SHARED_SIZE in *. lia.
Qed.

Lemma lock_may_issue_in_region (w : World) (id : OsFile) (ltype : Z)
    (c : HostCall) (r : Reply) :
  fd_inv w id -> lock_may_issue w id ltype c -> in_lock_region (h id) (c, r).
Proof.
  intros I M. destruct lock_bytes_layout as (A & B & C & D).
  destruct M as [[_ [E|E]] | [(_ & _ & [[_ E] | [[_ [E | (b & Hb & E)]] | [_ E]]])
                | [(_ & _ & E) | [_ [[S E] | E]]]]]; subst c;
    try (unfold in_lock_region; cbn [fst]; unfold SHARED_SIZE in *; lia).
  - unfold in_lock_region, read_lock_call. cbn [fst].
    destruct (nt_host w); unfold SHARED_SIZE in *; lia.
  - apply read_unlock_call_in_region.
    destruct I as [I|I]; [lia | exact I].
Qed.

(** [sqlite3OsLock] keeps the handle and [fd_inv]. *)
Lemma sqlite3OsLock_keeps_fd_inv (id : OsFile) (ltype : Z) (w : World) :
  fd_inv w id ->
  h (fd_of (sqlite3OsLock id ltype w)) = h id /\
  fd_inv w (fd_of (sqlite3OsLock id ltype w)).
Proof.
  intros I.
  destruct (Z.le_gt_cases ltype (locktype id)) as [G|G].
  { rewrite (sqlite3OsLock_early id ltype w G). split; [reflexivity | exact I]. }
  split.
  { destruct (sqlite3OsLock_ends id ltype w G) as (id1 & w' & ok & Hh & _ & E).
    rewrite E. destruct ok; exact Hh. }
  destruct (nt_host w) eqn:NT; [right; left; exact NT |].
  rewrite (sqlite3OsLock_steps id ltype w G).
  assert (N1 : nt_host (snd ((if (locktype id =? NO_LOCK) || (ltype =? PENDING_LOCK)
                              then pending_loop 4 (h id) 1 else ret 1) w)) = false).
  { rewrite <- NT.
    match goal with |- context [ (if ?c then ?a else ?e) w ] => destruct c end.
    - apply (steps_pending_loop any_event); intros; exact Logic.I.
    - reflexivity. }
  destruct ((if (locktype id =? NO_LOCK) || (ltype =? PENDING_LOCK)
             then pending_loop 4 (h id) 1 else ret 1) w) as [res w1].
  cbn [snd] in N1.
  destruct (Z.lt_ge_cases (locktype id) SHARED_LOCK) as [L|L].
  - (* below SHARED: the SHARED step sets the byte, or the level stays low *)
    destruct ((ltype >=? SHARED_LOCK) && (locktype id <? SHARED_LOCK)
              && negb (res =? 0)) eqn:C.
    + pose proof (steps_shared_step any_event id ltype w1
                    (fun _ _ => Logic.I) (fun _ _ => Logic.I)
                    (fun _ _ _ _ => Logic.I) (fun _ _ => Logic.I))
        as (_ & _ & B).
      specialize (B N1).
      destruct (shared_step id ltype w1) as [[res1 id1] w2]. cbn [fst snd] in B.
      unfold fd_of.
      destruct (lock_tail_result id1 ltype res1 w2) as [ok E]. rewrite E.
      right. right. destruct ok; exact B.
    + cbn [ret]. unfold fd_of.
      apply andb_false_iff in C. destruct C as [C|C].
      * (* the request itself is below SHARED *)
        assert (G' : ltype < SHARED_LOCK).
        { apply andb_false_iff in C. destruct C as [C|C].
          - rewrite Z.geb_leb in C. apply Z.leb_gt in C. exact C.
          - apply Z.ltb_ge in C. lia. }
        destruct (lock_tail_result id ltype res w1) as [ok E]. rewrite E.
        left. destruct ok; cbn [snd set_locktype locktype]; assumption.
      * (* the PENDING pre-lock failed *)
        apply negb_false_iff, Z.eqb_eq in C. subst res.
        rewrite (lock_tail_zero id ltype w1 L). left. exact L.
  - (* at SHARED or above: the byte is left alone *)
    assert (C : (locktype id <? SHARED_LOCK) = false) by (apply Z.ltb_ge; exact L).
    rewrite C, andb_false_r. cbn [andb ret]. unfold fd_of.
    destruct I as [I|[I|I]]; [lia | congruence |].
    destruct (lock_tail_result id ltype res w1) as [ok E]. rewrite E.
    right. right. destruct ok; exact I.
Qed.

Lemma unlock_calls_in_region (w : World) (id : OsFile) (c : HostCall) (r : Reply) :
  fd_inv w id -> In c (unlock_calls w id) -> in_lock_region (h id) (c, r).
Proof.
  intros I. unfold unlock_calls.
  destruct lock_bytes_layout as (A & B & C & D).
  destruct (locktype id >=? EXCLUSIVE_LOCK);
  destruct (locktype id >=? PENDING_LOCK);
  destruct (locktype id >=? RESERVED_LOCK);
  destruct (Z.eqb_spec (locktype id) SHARED_LOCK) as [S|S];
  cbn [app In]; intros H;
  repeat match type of H with _ \/ _ => destruct H as [H|H] end;
  try (destruct H; fail); subst c;
  try (unfold in_lock_region; cbn [fst]; unfold SHARED_SIZE in *; lia);
  apply read_unlock_call_in_region; (destruct I as [I|I]; [lia | exact I]).
Qed.

Lemma fd_inv_steps (P : Event -> Prop) (w w' : World) (id : OsFile) :
  steps_to P w w' -> fd_inv w id -> fd_inv w' id.
Proof. intros (_ & N & _) I. unfold fd_inv in *. rewrite N. exact I. Qed.

Lemma run_op_in_lock_region (op : LockOp) (id : OsFile) (w : World) :
  fd_inv w id ->
  steps_to (in_lock_region (h id)) w (world_of (run_op op id w)) /\
  h (fd_of (run_op op id w)) = h id /\
  fd_inv w (fd_of (run_op op id w)).
Proof.
  intros I. destruct op as [ltype|]; cbn [run_op].
  - split; [| apply sqlite3OsLock_keeps_fd_inv; exact I].
    destruct (Z.le_gt_cases ltype (locktype id)) as [G|G].
    + rewrite (sqlite3OsLock_early id ltype w G). apply steps_refl.
    + apply sqlite3OsLock_alphabet; [exact G |].
      intros c r M. eapply lock_may_issue_in_region; eauto.
  - destruct (steps_sqlite3OsUnlock (in_lock_region (h id)) id w) as [S E].
    { intros c r H. eapply unlock_calls_in_region; eauto. }
    split; [exact S |]. unfold fd_of. rewrite E. cbn [snd].
    split; [reflexivity |]. left. reflexivity.
Qed.

(** X5 -- along every sequence of lock requests and unlocks on a descriptor
    that starts below SHARED (or satisfies [fd_inv]), every call issued is a
    lock or unlock on the handle of the descriptor of a range that lies
    within [PENDING_BYTE .. 0xffffffff], a sleep or a random draw: the
    locking code never locks a byte of the data of a file smaller than
    [PENDING_BYTE], never touches another handle, never reads or writes. *)
Theorem run_ops_in_lock_region :
  forall (ops : list LockOp) (id : OsFile) (w : World),
    fd_inv w id ->
    exists evs : list Event,
      log (snd (run_ops ops id w)) = log w ++ evs /\
      Forall (in_lock_region (h id)) evs.
Proof.
  intros ops id w I.
  cut (steps_to (in_lock_region (h id)) w (snd (run_ops ops id w))).
  { intros (_ & _ & S). exact S. }
  revert id w I. induction ops as [|op ops IH]; intros id w I.
  - apply steps_refl.
  - cbn [run_ops].
    destruct (run_op_in_lock_region op id w I) as (S & Hh & I1).
    unfold world_of, fd_of in S, Hh, I1.
    destruct (run_op op id w) as [[rc id1] w1]. cbn [fst snd] in S, Hh, I1.
    pose proof (IH id1 w1 (fd_inv_steps _ _ _ _ S I1)) as S2.
    destruct (run_ops ops id1 w1) as [[hist id2] w2]. cbn [snd] in *.
    rewrite Hh in S2. eapply steps_trans; eassumption.
Qed.

Lemma run_ops_in_lock_region_witness :
  fd_inv (world_95 (host_random 123456789)) (mkOsFile 7 NO_LOCK 999999) /\
  exists evs : list Event,
    log (snd (run_ops [OpLock SHARED_LOCK; OpLock EXCLUSIVE_LOCK; OpUnlock]
                (mkOsFile 7 NO_LOCK 999999) (world_95 (host_random 123456789))))
    = log (world_95 (host_random 123456789)) ++ evs /\
    Forall (in_lock_region (h (mkOsFile 7 NO_LOCK 999999))) evs.
Proof.
  assert (H1 : fd_inv (world_95 (host_random 123456789))
                 (mkOsFile 7 NO_LOCK 999999))
    by (left; reflexivity).
  split; [exact H1 |].
  exact (run_ops_in_lock_region _ (mkOsFile 7 NO_LOCK 999999)
           (world_95 (host_random 123456789)) H1).
Defined.

(** ** Unlocking twice, probing for a writer *)

(** X6 -- unlocking the descriptor that [sqlite3OsUnlock] returns does
    nothing: no host call is issued and the descriptor stays as it is. *)
Theorem sqlite3OsUnlock_twice :
  forall (id : OsFile) (w w' : World),
    sqlite3OsUnlock (fd_of (sqlite3OsUnlock id w)) w'
    = (SQLITE_OK, fd_of (sqlite3OsUnlock id w), w').
Proof.
  intros id w w'.
  destruct (steps_sqlite3OsUnlock any_event id w (fun _ _ _ => I)) as [_ E].
  unfold fd_of. rewrite E. cbn [snd].
  unfold sqlite3OsUnlock. exec. reflexivity.
Qed.

(** X7 -- [sqlite3OsCheckWriteLock] leaves no lock behind: at RESERVED or
    above it issues nothing; below, it probes [RESERVED_BYTE] with a reader
    lock, and a probe that succeeds is followed at once by its release. *)
Theorem sqlite3OsCheckWriteLock_probe :
  forall (id : OsFile) (w : World),
    exists evs : list Event,
      log (snd (sqlite3OsCheckWriteLock id w)) = log w ++ evs /\
      (RESERVED_LOCK <= locktype id -> evs = []) /\
      (locktype id < RESERVED_LOCK ->
       exists r : Reply,
         (rv r = 0 /\
          evs = [(read_lock_call w (h id) RESERVED_BYTE 1, r)]) \/
         (rv r <> 0 /\
          exists u : Reply,
            evs = [(read_lock_call w (h id) RESERVED_BYTE 1, r);
                   (UnlockFile (h id) RESERVED_BYTE 1, u)])).
Proof.
  intros id w. unfold sqlite3OsCheckWriteLock. exec.
  destruct (Z.geb_spec (locktype id) RESERVED_LOCK) as [G|G]; norm.
  - exists []. split; [symmetry; apply app_nil_r |].
    split; [reflexivity | lia].
  - rewrite getReadLock_eq. norm. name_replies.
    destruct (Z.eqb_spec (rv reply) 0) as [E|E]; cbn [negb]; norm; name_replies;
      eexists; (split; [solve_log |]); (split; [lia |]); intros _;
      exists reply; [left | right]; split; eauto.
Qed.

(** X4 -- the promotion to EXCLUSIVE of a descriptor that holds a reader
    lock: the RESERVED byte is asked for if not yet held, then the reader
    lock is released whatever the RESERVED byte answered, and the outcome is
    that of the release and of the lock of the pool alone. *)
Theorem sqlite3OsLock_promotion :
  forall (id : OsFile) (w : World),
    SHARED_LOCK <= locktype id < EXCLUSIVE_LOCK ->
    exists (pre : list Event) (u : Reply) (post : list Event),
      log (world_of (sqlite3OsLock id EXCLUSIVE_LOCK w)) =
      log w ++ pre ++ (read_unlock_call w id, u) :: post /\
      (RESERVED_LOCK <= locktype id -> pre = []) /\
      (locktype id < RESERVED_LOCK ->
       exists r : Reply, pre = [(read_lock_call w (h id) RESERVED_BYTE 1, r)]) /\
      ((rv u = 0 /\ post = [] /\
        rc_of (sqlite3OsLock id EXCLUSIVE_LOCK w) = SQLITE_BUSY) \/
       (rv u <> 0 /\
        exists l : Reply,
          post = [(LockFile (h id) SHARED_FIRST SHARED_SIZE, l)] /\
          rc_of (sqlite3OsLock id EXCLUSIVE_LOCK w)
          = if rv l =? 0 then SQLITE_BUSY else SQLITE_OK)).
Proof.
  intros id w SG. rewrite (sqlite3OsLock_to_exclusive id w SG).
  destruct (Z.ltb_spec (locktype id) RESERVED_LOCK) as [R|R];
    rewrite ?getReadLock_eq; norm; rewrite unlockReadLock_eq; norm;
    name_replies;
    repeat match goal with
           | |- context [rv ?x =? 0] => destruct (Z.eqb_spec (rv x) 0)
           end; norm;
    [ eexists [_], _, _ | eexists [_], _, _ | eexists [_], _, _
    | eexists [], _, _ | eexists [], _, _ | eexists [], _, _ ];
    (split; [solve_log |]);
    (split; [try lia; reflexivity |]);
    (split; [try lia; eauto |]);
    first [ left; repeat split; solve [assumption | reflexivity]
          | right; split; [assumption |]; eexists; split; [reflexivity |] ];
    match goal with
    | H : rv ?l = 0 |- context [rv ?l =? 0] => rewrite H; reflexivity
    | H : rv ?l <> 0 |- context [rv ?l =? 0] =>
        apply Z.eqb_neq in H; rewrite H; reflexivity
    end.
Qed.

Lemma sqlite3OsLock_promotion_witness :
  SHARED_LOCK <= locktype (fd_at SHARED_LOCK) < EXCLUSIVE_LOCK /\
  exists (pre : list Event) (u : Reply) (post : list Event),
    log (world_of (sqlite3OsLock (fd_at SHARED_LOCK) EXCLUSIVE_LOCK
                     (world_NT host_pool_busy))) =
    log (world_NT host_pool_busy)
      ++ pre ++ (read_unlock_call (world_NT host_pool_busy)
                   (fd_at SHARED_LOCK), u) :: post /\
    (RESERVED_LOCK <= locktype (fd_at SHARED_LOCK) -> pre = []) /\
    (locktype (fd_at SHARED_LOCK) < RESERVED_LOCK ->
     exists r : Reply,
       pre = [(read_lock_call (world_NT host_pool_busy)
                 (h (fd_at SHARED_LOCK)) RESERVED_BYTE 1, r)]) /\
    ((rv u = 0 /\ post = [] /\
      rc_of (sqlite3OsLock (fd_at SHARED_LOCK) EXCLUSIVE_LOCK
               (world_NT host_pool_busy)) = SQLITE_BUSY) \/
     (rv u <> 0 /\
      exists l : Reply,
        post = [(LockFile (h (fd_at SHARED_LOCK)) SHARED_FIRST SHARED_SIZE, l)] /\
        rc_of (sqlite3OsLock (fd_at SHARED_LOCK) EXCLUSIVE_LOCK
                 (world_NT host_pool_busy))
        = if rv l =? 0 then SQLITE_BUSY else SQLITE_OK)).
Proof.
  assert (H1 : SHARED_LOCK <= locktype (fd_at SHARED_LOCK) < EXCLUSIVE_LOCK)
    by (split; [vm_compute; discriminate | reflexivity]).
  split; [exact H1 |].
  exact (sqlite3OsLock_promotion (fd_at SHARED_LOCK)
           (world_NT host_pool_busy) H1).
Defined.

(* ================================================================== *)
(** * Further properties of reading and writing *)

Lemma to_int_small (x : Z) : - 2 ^ 31 <= x < 2 ^ 31 -> to_int x = x.
Proof.
  intros R. unfold to_int. rewrite Z.mod_small; lia.
Qed.

Lemma to_DWORD_small (x : Z) : 0 <= x < 2 ^ 32 -> to_DWORD x = x.
Proof. intros R. unfold to_DWORD. apply Z.mod_small. exact R. Qed.

(** The loop of [sqlite3OsWrite] against a host that never reports more
    than it was asked for: with fuel for one round per byte it ends, its
    calls form a [write_chain], and it stops on a failed call, on a call
    that wrote nothing, or with nothing left to write. *)
Lemma write_loop_spec (hd : Z) (fuel : nat) :
  forall (pBuf amt rc wrote : Z) (w : World),
    honest_writes w ->
    0 < amt < 2 ^ 31 ->
    (Z.to_nat amt <= fuel)%nat ->
    exists (amt' rc' wrote' : Z) (evs : list Event),
      write_loop fuel hd pBuf amt rc wrote w
      = Some (amt', rc', wrote', set_log w (log w ++ evs)) /\
      write_chain hd pBuf amt evs /\
      written evs = amt - amt' /\
      ((rc' = 0 /\ 0 < amt') \/
       (rc' <> 0 /\ wrote' = 0 /\ 0 < amt') \/
       (rc' <> 0 /\ 0 < wrote' < 2 ^ 31 /\ amt' = 0)).
Proof.
  induction fuel as [|fuel IH]; intros pBuf amt rc wrote w Hn A F.
  - exfalso. lia.
  - cbn [write_loop].
    destruct (Z.gtb_spec amt 0) as [_|]; [| lia].
    rewrite call_eq. rewrite (to_DWORD_small amt) by lia.
    set (r := host w (log w) (WriteFile hd pBuf amt)).
    assert (Hr : to_DWORD (outv r) <= amt) by (apply Hn; lia).
    assert (Hp := to_DWORD_range (outv r)).
    destruct (Z.eqb_spec (rv r) 0) as [E|E]; cbn [negb andb].
    { (* the call failed *)
      exists amt, (rv r), (to_DWORD (outv r)), [(WriteFile hd pBuf amt, r)].
      split; [reflexivity |]. split; [constructor; auto |].
      split; [cbn [written]; apply Z.eqb_eq in E; rewrite E; lia |].
      left. lia. }
    destruct (Z.gtb_spec (to_DWORD (outv r)) 0) as [G|G].
    2: { (* nothing written *)
      assert (Z0 : to_DWORD (outv r) = 0) by lia.
      exists amt, (rv r), (to_DWORD (outv r)), [(WriteFile hd pBuf amt, r)].
      split; [reflexivity |]. split; [constructor; auto |].
      split; [cbn [written]; rewrite Z0; destruct (rv r =? 0); lia |].
      right. left. lia. }
    rewrite (to_int_small (amt - to_DWORD (outv r))) by lia.
    destruct (Z.eq_dec (to_DWORD (outv r)) amt) as [All|Part].
    { (* all that was left is written *)
      rewrite All, Z.sub_diag.
      exists 0, (rv r), amt, [(WriteFile hd pBuf amt, r)].
      split; [destruct fuel; reflexivity |].
      split; [constructor; auto |].
      split; [cbn [written]; apply Z.eqb_neq in E; rewrite E; lia |].
      right. right. lia. }
    (* a short write: go round again *)
    destruct (IH (pBuf + to_DWORD (outv r)) (amt - to_DWORD (outv r))
                (rv r) (to_DWORD (outv r))
                (set_log w (log w ++ [(WriteFile hd pBuf amt, r)])))
      as (amt' & rc' & wrote' & evs & L & C & W & O).
    { exact Hn. }
    { lia. }
    { lia. }
    exists amt', rc', wrote', ((WriteFile hd pBuf amt, r) :: evs).
    split.
    { rewrite L. cbn [set_log log osType dwPlatformId io_error_hook host].
      rewrite <- app_assoc. reflexivity. }
    split; [apply chain_more; [exact E | lia | exact C] |].
    split; [cbn [written]; apply Z.eqb_neq in E; rewrite E; lia | exact O].
Qed.

(** X8 -- a write of [amt > 0] bytes, the test hook at rest, against a host
    that never reports more than it was asked for: the function returns, its
    calls form a [write_chain] (each call asks for what is left at the place
    the previous one stopped), and it answers [SQLITE_OK] exactly when the
    successful calls wrote all [amt] bytes, [SQLITE_FULL] otherwise. *)
Theorem sqlite3OsWrite_drains :
  forall (rc0 wrote0 : Z) (fuel : nat) (id : OsFile) (pBuf amt : Z) (w : World),
    io_error_hook w = false ->
    honest_writes w ->
    0 < amt < 2 ^ 31 ->
    (Z.to_nat amt <= fuel)%nat ->
    exists (rc : ResultCode) (w' : World) (evs : list Event),
      sqlite3OsWrite rc0 wrote0 fuel id pBuf amt w = Some (rc, w') /\
      log w' = log w ++ evs /\
      write_chain (h id) pBuf amt evs /\
      (written evs = amt -> rc = SQLITE_OK) /\
      (written evs <> amt -> rc = SQLITE_FULL).
Proof.
  intros rc0 wrote0 fuel id pBuf amt w Hk Hn A F.
  unfold sqlite3OsWrite, SimulateIOError. rewrite Hk.
  destruct (write_loop_spec (h id) fuel pBuf amt rc0 wrote0 w Hn A F)
    as (amt' & rc' & wrote' & evs & L & C & W & O).
  rewrite L.
  destruct O as [[R P] | [(R & Z0 & P) | (R & Wr & Z0)]].
  - apply Z.eqb_eq in R. rewrite R. cbn [orb].
    eexists _, _, evs. split; [reflexivity |]. split; [reflexivity |].
    split; [exact C |]. split; [intros; lia | reflexivity].
  - apply Z.eqb_neq in R. rewrite R. cbn [orb]. subst wrote'.
    change (to_int 0) with 0.
    destruct (Z.gtb_spec amt' 0); [| lia].
    eexists _, _, evs. split; [reflexivity |]. split; [reflexivity |].
    split; [exact C |]. split; [intros; lia | reflexivity].
  - apply Z.eqb_neq in R. rewrite R. cbn [orb]. subst amt'.
    rewrite (to_int_small wrote') by lia.
    destruct (Z.gtb_spec 0 wrote'); [lia |].
    eexists _, _, evs. split; [reflexivity |]. split; [reflexivity |].
    split; [exact C |]. split; [reflexivity | intros; lia].
Qed.

Lemma honest_chunks (chunk : Z) (osT plat : Z) (hook : bool) (l : list Event) :
  0 <= chunk < 2 ^ 32 ->
  honest_writes (mkWorld osT plat hook (host_chunks chunk) l).
Proof.
  intros Hc l' hd buf n Hn. cbn [host host_chunks outv].
  rewrite to_DWORD_small by lia. lia.
Qed.

Lemma sqlite3OsWrite_drains_witness :
  (io_error_hook (world_NT (host_chunks 4)) = false /\
   honest_writes (world_NT (host_chunks 4)) /\
   0 < 10 < 2 ^ 31 /\
   (Z.to_nat 10 <= 10)%nat) /\
  exists (rc : ResultCode) (w' : World) (evs : list Event),
    sqlite3OsWrite 0 0 10 (fd_at NO_LOCK) 0 10 (world_NT (host_chunks 4))
    = Some (rc, w') /\
    log w' = log (world_NT (host_chunks 4)) ++ evs /\
    write_chain (h (fd_at NO_LOCK)) 0 10 evs /\
    (written evs = 10 -> rc = SQLITE_OK) /\
    (written evs <> 10 -> rc = SQLITE_FULL).
Proof.
  assert (H1 : io_error_hook (world_NT (host_chunks 4)) = false)
    by reflexivity.
  assert (H2 : honest_writes (world_NT (host_chunks 4)))
    by (apply honest_chunks; lia).
  assert (H3 : 0 < 10 < 2 ^ 31) by lia.
  assert (H4 : (Z.to_nat 10 <= 10)%nat) by lia.
  split; [repeat split; solve [assumption | apply H3] |].
  exact (sqlite3OsWrite_drains 0 0 10 (fd_at NO_LOCK) 0 10
           (world_NT (host_chunks 4)) H1 H2 H3 H4).
Defined.

(* ================================================================== *)
(** * Properties of the other file operations *)

(** ** Seeking, truncating, sizing *)

Lemma split_offset (offset : Z) :
  - 2 ^ 63 <= offset < 2 ^ 63 ->
  to_int (Z.shiftr offset 32) * 2 ^ 32
  + to_DWORD (to_int (Z.land offset 0xffffffff)) = offset /\
  - 2 ^ 31 <= to_int (Z.shiftr offset 32) < 2 ^ 31 /\
  - 2 ^ 31 <= to_int (Z.land offset 0xffffffff) < 2 ^ 31.
Proof.
  intros R.
  rewrite Z.shiftr_div_pow2 by lia.
  change 0xffffffff with (Z.ones 32). rewrite Z.land_ones by lia.
  assert (M := Z.mod_pos_bound offset (2 ^ 32) eq_refl).
  assert (D := Z.div_mod offset (2 ^ 32)).
  assert (Hq : - 2 ^ 31 <= offset / 2 ^ 32 < 2 ^ 31).
  { split.
    - apply Z.div_le_lower_bound; lia.
    - apply Z.div_lt_upper_bound; lia. }
  rewrite (to_int_small (offset / 2 ^ 32)) by exact Hq.
  assert (L : to_DWORD (to_int (offset mod 2 ^ 32)) = offset mod 2 ^ 32).
  { unfold to_DWORD, to_int.
    rewrite Zminus_mod_idemp_l.
    replace (offset mod 2 ^ 32 + 2 ^ 31 - 2 ^ 31) with (offset mod 2 ^ 32) by lia.
    apply Z.mod_small. exact M. }
  rewrite L. split; [lia |]. split; [exact Hq |].
  unfold to_int.
  assert (M' := Z.mod_pos_bound (offset mod 2 ^ 32 + 2 ^ 31) (2 ^ 32) eq_refl).
  lia.
Qed.

Lemma to_int_low_word (x : Z) : to_int (Z.land x 0xffffffff) = to_int x.
Proof.
  change 0xffffffff with (Z.ones 32). rewrite Z.land_ones by lia.
  unfold to_int. rewrite Zplus_mod_idemp_l. reflexivity.
Qed.

(** X9 -- [sqlite3OsSeek] hands the host the two [LONG] words that make up
    the 64-bit offset -- the high word times 2^32 plus the low word read as
    unsigned is the offset, for every [off_t], negative ones included -- and
    answers [SQLITE_OK] whatever the host answers. *)
Theorem sqlite3OsSeek_words :
  forall (id : OsFile) (offset : Z) (s : Sys),
    - 2 ^ 63 <= offset < 2 ^ 63 ->
    exists (lo hi : Z) (r : SysReply),
      sqlite3OsSeek id offset s =
      (SQLITE_OK,
       mkSys (sys_io_error_hook s) (sys_host s)
         (sys_log s ++ [(SetFilePointer (h id) lo hi, r)])) /\
      hi * 2 ^ 32 + to_DWORD lo = offset /\
      - 2 ^ 31 <= lo < 2 ^ 31 /\ - 2 ^ 31 <= hi < 2 ^ 31.
Proof.
  intros id offset s R.
  destruct (split_offset offset R) as (A & B & C).
  eexists _, _, _. split; [reflexivity |]. auto.
Qed.

Lemma sqlite3OsSeek_words_witness :
  - 2 ^ 63 <= 5 * 2 ^ 32 + 4294967295 < 2 ^ 63 /\
  exists (lo hi : Z) (r : SysReply),
    sqlite3OsSeek (fd_at NO_LOCK) (5 * 2 ^ 32 + 4294967295)
      (mkSys false sys_host_big []) =
    (SQLITE_OK,
     mkSys (sys_io_error_hook (mkSys false sys_host_big []))
       (sys_host (mkSys false sys_host_big []))
       (sys_log (mkSys false sys_host_big [])
          ++ [(SetFilePointer (h (fd_at NO_LOCK)) lo hi, r)])) /\
    hi * 2 ^ 32 + to_DWORD lo = 5 * 2 ^ 32 + 4294967295 /\
    - 2 ^ 31 <= lo < 2 ^ 31 /\ - 2 ^ 31 <= hi < 2 ^ 31.
Proof.
  assert (H1 : - 2 ^ 63 <= 5 * 2 ^ 32 + 4294967295 < 2 ^ 63) by lia.
  split; [exact H1 |].
  exact (sqlite3OsSeek_words (fd_at NO_LOCK) (5 * 2 ^ 32 + 4294967295)
           (mkSys false sys_host_big []) H1).
Defined.

(** X10 -- [sqlite3OsTruncate], the test hook at rest, moves the file
    pointer with the very call [sqlite3OsSeek] issues for the same value,
    then calls [SetEndOfFile]; it answers [SQLITE_OK] whatever the host
    answers to either call. *)
Theorem sqlite3OsTruncate_seeks_then_cuts :
  forall (id : OsFile) (nByte : Z) (s : Sys),
    sys_io_error_hook s = false ->
    exists r : SysReply,
      sys_log (snd (sqlite3OsTruncate id nByte s)) =
      sys_log (snd (sqlite3OsSeek id nByte s)) ++ [(SetEndOfFile (h id), r)] /\
      fst (sqlite3OsTruncate id nByte s) = SQLITE_OK.
Proof.
  intros id nByte s Hk. unfold sqlite3OsTruncate, sqlite3OsSeek. rewrite Hk.
  rewrite to_int_low_word. cbn [sys_call fst snd sys_log sys_host].
  eexists. split; reflexivity.
Qed.

Lemma sqlite3OsTruncate_seeks_then_cuts_witness :
  sys_io_error_hook (mkSys false sys_host_big []) = false /\
  exists r : SysReply,
    sys_log (snd (sqlite3OsTruncate (fd_at NO_LOCK) 4096
                    (mkSys false sys_host_big []))) =
    sys_log (snd (sqlite3OsSeek (fd_at NO_LOCK) 4096
                    (mkSys false sys_host_big [])))
      ++ [(SetEndOfFile (h (fd_at NO_LOCK)), r)] /\
    fst (sqlite3OsTruncate (fd_at NO_LOCK) 4096 (mkSys false sys_host_big []))
    = SQLITE_OK.
Proof.
  split; [reflexivity |].
  exact (sqlite3OsTruncate_seeks_then_cuts (fd_at NO_LOCK) 4096
           (mkSys false sys_host_big []) eq_refl).
Defined.

(** X11 -- [sqlite3OsFileSize], the test hook at rest, asks the host once
    and answers [SQLITE_OK] whatever it is told. When the high word reported
    is below 2^31 the size is [high * 2^32 + low], and seeking to that size
    hands the host back the two words it reported. *)
Theorem sqlite3OsFileSize_round_trip :
  forall (id : OsFile) (pSize : Z) (s : Sys),
    sys_io_error_hook s = false ->
    exists r : SysReply,
      sys_log (snd (sqlite3OsFileSize id pSize s)) =
      sys_log s ++ [(GetFileSize (h id), r)] /\
      fst (fst (sqlite3OsFileSize id pSize s)) = SQLITE_OK /\
      (to_DWORD (shigh r) < 2 ^ 31 ->
       snd (fst (sqlite3OsFileSize id pSize s))
       = to_DWORD (shigh r) * 2 ^ 32 + to_DWORD (sret r) /\
       forall s' : Sys,
       exists (lo : Z) (q : SysReply),
         sys_log (snd (sqlite3OsSeek id (snd (fst (sqlite3OsFileSize id pSize s))) s'))
         = sys_log s' ++ [(SetFilePointer (h id) lo (to_DWORD (shigh r)), q)] /\
         to_DWORD lo = to_DWORD (sret r)).
Proof.
  intros id pSize s Hk. unfold sqlite3OsFileSize. rewrite Hk.
  cbn [sys_call fst snd sys_log sys_host].
  set (r := sys_host s (sys_log s) (GetFileSize (h id))).
  exists r. split; [reflexivity |]. split; [reflexivity |].
  intros Hh.
  assert (Rh := to_DWORD_range (shigh r)).
  assert (Rl := to_DWORD_range (sret r)).
  assert (E : to_off_t (to_off_t (to_DWORD (shigh r) * 2 ^ 32) + to_DWORD (sret r))
              = to_DWORD (shigh r) * 2 ^ 32 + to_DWORD (sret r)).
  { unfold to_off_t.
    rewrite (Z.mod_small (to_DWORD (shigh r) * 2 ^ 32 + 2 ^ 63)) by lia.
    rewrite Z.mod_small by lia. lia. }
  rewrite E. split; [reflexivity |].
  intros s'. unfold sqlite3OsSeek. cbn [sys_call fst snd sys_log].
  assert (Hi : to_int (Z.shiftr (to_DWORD (shigh r) * 2 ^ 32 + to_DWORD (sret r)) 32)
               = to_DWORD (shigh r)).
  { rewrite Z.shiftr_div_pow2 by lia.
    replace ((to_DWORD (shigh r) * 2 ^ 32 + to_DWORD (sret r)) / 2 ^ 32)
      with (to_DWORD (shigh r)).
    - apply to_int_small. lia.
    - symmetry. rewrite Z.add_comm, Z.div_add by lia.
      rewrite Z.div_small by lia. reflexivity. }
  rewrite Hi. eexists _, _. split; [reflexivity |].
  rewrite to_int_low_word. unfold to_DWORD at 1, to_int.
  rewrite Zminus_mod_idemp_l.
  replace (to_DWORD (shigh r) * 2 ^ 32 + to_DWORD (sret r) + 2 ^ 31 - 2 ^ 31)
    with (to_DWORD (sret r) + to_DWORD (shigh r) * 2 ^ 32) by lia.
  rewrite Z.mod_add by lia. apply Z.mod_small. exact Rl.
Qed.

Lemma sqlite3OsFileSize_round_trip_witness :
  sys_io_error_hook (mkSys false sys_host_big []) = false /\
  exists r : SysReply,
    sys_log (snd (sqlite3OsFileSize (fd_at NO_LOCK) 0 (mkSys false sys_host_big [])))
    = sys_log (mkSys false sys_host_big [])
        ++ [(GetFileSize (h (fd_at NO_LOCK)), r)] /\
    fst (fst (sqlite3OsFileSize (fd_at NO_LOCK) 0 (mkSys false sys_host_big [])))
    = SQLITE_OK /\
    (to_DWORD (shigh r) < 2 ^ 31 ->
     snd (fst (sqlite3OsFileSize (fd_at NO_LOCK) 0 (mkSys false sys_host_big [])))
     = to_DWORD (shigh r) * 2 ^ 32 + to_DWORD (sret r) /\
     forall s' : Sys,
     exists (lo : Z) (q : SysReply),
       sys_log (snd (sqlite3OsSeek (fd_at NO_LOCK)
                       (snd (fst (sqlite3OsFileSize (fd_at NO_LOCK) 0
                                    (mkSys false sys_host_big [])))) s'))
       = sys_log s'
           ++ [(SetFilePointer (h (fd_at NO_LOCK)) lo (to_DWORD (shigh r)), q)] /\
       to_DWORD lo = to_DWORD (sret r)).
Proof.
  split; [reflexivity |].
  exact (sqlite3OsFileSize_round_trip (fd_at NO_LOCK) 0
           (mkSys false sys_host_big []) eq_refl).
Defined.

(** ** Temporary file names *)

Lemma name_char_alnum (b : Ascii.ascii) : is_alnum (name_char b) = true.
Proof.
  destruct b as [[] [] [] [] [] [] [] []]; vm_compute; reflexivity.
Qed.

Lemma random_suffix_length (bytes : list Ascii.ascii) :
  length (random_suffix bytes) = 15%nat.
Proof. reflexivity. Qed.

Lemma random_suffix_alnum (bytes : list Ascii.ascii) :
  Forall (fun c => is_alnum c = true) (random_suffix bytes).
Proof.
  unfold random_suffix. apply Forall_forall. intros c Hc.
  apply in_map_iff in Hc. destruct Hc as (i & <- & _). apply name_char_alnum.
Qed.

(** Where the loop over the trailing backslashes stops. *)
Lemma strip_loop_spec (zTempPath : cstring) (i : nat) :
  (i <= length zTempPath)%nat ->
  (strip_loop i zTempPath <= i)%nat /\
  (forall k, (strip_loop i zTempPath <= k < i)%nat ->
             nth_error zTempPath k = Some backslash) /\
  (forall n, strip_loop i zTempPath = S n ->
             exists c, nth_error zTempPath n = Some c /\ c <> backslash).
Proof.
  induction i as [|i IH]; intros Hi; cbn [strip_loop].
  - repeat split; [lia | intros; lia | discriminate].
  - destruct (nth_error zTempPath i) as [c|] eqn:E.
    2: { apply nth_error_None in E. lia. }
    destruct (Ascii.eqb_spec c backslash) as [B|B].
    + destruct IH as (A1 & A2 & A3); [lia |]. repeat split; [lia | | exact A3].
      intros k Hk. destruct (Nat.eq_dec k i) as [->|N].
      * rewrite E, B. reflexivity.
      * apply A2. lia.
    + repeat split; [lia | intros; lia |].
      intros n Hn. injection Hn as <-. exists c. auto.
Qed.

(** What is cut off a path is backslashes only, and what is kept does not
    end with one. *)
Lemma strip_path (zTempPath : cstring) :
  let i := strip_loop (length zTempPath) zTempPath in
  zTempPath = firstn i zTempPath ++ skipn i zTempPath /\
  Forall (eq backslash) (skipn i zTempPath) /\
  no_trailing_backslash (firstn i zTempPath).
Proof.
  intros i.
  destruct (strip_loop_spec zTempPath (length zTempPath) (le_n _))
    as (A1 & A2 & A3). fold i in A1, A2, A3.
  split; [symmetry; apply firstn_skipn |]. split.
  - apply Forall_forall. intros c Hc.
    apply In_nth_error in Hc. destruct Hc as [k Hk].
    rewrite nth_error_skipn in Hk.
    assert (K : (i + k < length zTempPath)%nat).
    { apply nth_error_Some. rewrite Hk. discriminate. }
    rewrite A2 in Hk by lia. congruence.
  - intros q Hq.
    assert (L : length (firstn i zTempPath) = i)
      by (apply firstn_length_le; exact A1).
    rewrite Hq, length_app in L. cbn [length] in L.
    destruct (A3 (length q)) as (c & Hc & Nc); [lia |].
    assert (Hn : nth_error (firstn i zTempPath) (length q) = Some c).
    { rewrite nth_error_firstn.
      destruct (Nat.ltb_spec (length q) i); [exact Hc | lia]. }
    rewrite Hq in Hn. rewrite nth_error_app2 in Hn by lia.
    rewrite Nat.sub_diag in Hn. cbn [nth_error] in Hn. congruence.
Qed.

Section TempFileNameProperties.

Variable TEMP_FILE_PREFIX : cstring.
Variable SQLITE_TEMPNAME_SIZE : Z.

(** A candidate the loop settles on: the path, a backslash, the prefix and
    15 letters or digits; the last thing asked of the host is whether it
    exists, and the answer is that it does not. *)
Lemma temp_name_loop_spec (fuel : nat) (zTempPath : cstring) :
  forall (s s' : Sys) (zBuf : cstring),
    temp_name_loop TEMP_FILE_PREFIX fuel zTempPath s = Some (zBuf, s') ->
    exists (suffix : cstring) (pre : list SysEvent) (r : SysReply),
      zBuf = zTempPath ++ [backslash] ++ TEMP_FILE_PREFIX ++ suffix /\
      length suffix = 15%nat /\
      Forall (fun c => is_alnum c = true) suffix /\
      sys_log s' = sys_log s ++ pre ++ [(GetFileAttributes zBuf, r)] /\
      to_DWORD (sret r) = 0xffffffff.
Proof.
  induction fuel as [|fuel IH]; intros s s' zBuf H; cbn [temp_name_loop] in H.
  - discriminate.
  - unfold sqlite3OsFileExists in H.
    cbn [sys_call fst snd sys_log sys_host sys_io_error_hook] in H.
    set (b := sys_host s (sys_log s) (RandomBytes 15)) in *.
    set (cand := (zTempPath ++ [backslash] ++ TEMP_FILE_PREFIX)
                   ++ random_suffix (stext b)) in *.
    set (l1 := sys_log s ++ [(RandomBytes 15, b)]) in *.
    set (a := sys_host s l1 (GetFileAttributes cand)) in *.
    destruct (Z.eqb_spec (to_DWORD (sret a)) 0xffffffff) as [E|E];
      cbn [negb] in H.
    + injection H as <- <-.
      exists (random_suffix (stext b)), [(RandomBytes 15, b)], a.
      split; [unfold cand; rewrite <- !app_assoc; reflexivity |].
      split; [apply random_suffix_length |].
      split; [apply random_suffix_alnum |].
      split; [| exact E].
      cbn [sys_log]. unfold l1. rewrite <- !app_assoc. reflexivity.
    + apply IH in H. destruct H as (suffix & pre & r & A1 & A2 & A3 & A4 & A5).
      exists suffix, ((RandomBytes 15, b) :: (GetFileAttributes cand, a) :: pre), r.
      repeat split; auto.
      rewrite A4. cbn [sys_log]. unfold l1. rewrite <- !app_assoc. reflexivity.
Qed.

(** X12 -- when [sqlite3OsTempFileName] returns, the result is [SQLITE_OK]
    and the name is the host's temporary path without its trailing
    backslashes, one backslash, the prefix and 15 characters that are all
    letters or digits; the last call of the function asked the host about
    that very name and was told that no such file exists. *)
Theorem sqlite3OsTempFileName_shape :
  forall (fuel : nat) (s s' : Sys) (rc : ResultCode) (zBuf : cstring),
    sqlite3OsTempFileName TEMP_FILE_PREFIX SQLITE_TEMPNAME_SIZE fuel s
    = Some (rc, zBuf, s') ->
    rc = SQLITE_OK /\
    exists (g : SysReply) (dir cut suffix : cstring)
           (pre : list SysEvent) (r : SysReply),
      stext g = dir ++ cut /\
      Forall (eq backslash) cut /\
      no_trailing_backslash dir /\
      zBuf = dir ++ [backslash] ++ TEMP_FILE_PREFIX ++ suffix /\
      length suffix = 15%nat /\
      Forall (fun c => is_alnum c = true) suffix /\
      sys_log s' =
      sys_log s ++ (GetTempPath (SQLITE_TEMPNAME_SIZE - 30), g) :: pre
                ++ [(GetFileAttributes zBuf, r)] /\
      to_DWORD (sret r) = 0xffffffff.
Proof.
  intros fuel s s' rc zBuf H. unfold sqlite3OsTempFileName in H.
  cbn [sys_call fst snd] in H.
  set (g := sys_host s (sys_log s) (GetTempPath (SQLITE_TEMPNAME_SIZE - 30))) in *.
  destruct (temp_name_loop _ _ _ _) as [[name s2]|] eqn:L; [| discriminate].
  injection H as <- <- <-. split; [reflexivity |].
  apply temp_name_loop_spec in L.
  destruct L as (suffix & pre & r & A1 & A2 & A3 & A4 & A5).
  destruct (strip_path (stext g)) as (B1 & B2 & B3).
  exists g, (firstn (strip_loop (length (stext g)) (stext g)) (stext g)),
    (skipn (strip_loop (length (stext g)) (stext g)) (stext g)),
    suffix, pre, r.
  repeat split; auto.
  rewrite A4. cbn [sys_log]. rewrite <- app_assoc. reflexivity.
Qed.

(** X13 -- on a host where no file exists, the function returns after a
    single candidate, whatever fuel it is given beyond one round. *)
Theorem sqlite3OsTempFileName_returns :
  forall (fuel : nat) (s : Sys),
    nothing_exists s ->
    exists (zBuf : cstring) (g b r : SysReply),
      sqlite3OsTempFileName TEMP_FILE_PREFIX SQLITE_TEMPNAME_SIZE (S fuel) s
      = Some (SQLITE_OK, zBuf,
              mkSys (sys_io_error_hook s) (sys_host s)
                (sys_log s ++ [(GetTempPath (SQLITE_TEMPNAME_SIZE - 30), g);
                               (RandomBytes 15, b);
                               (GetFileAttributes zBuf, r)])).
Proof.
  intros fuel s N. unfold sqlite3OsTempFileName.
  cbn [sys_call fst snd temp_name_loop sqlite3OsFileExists
       sys_log sys_host sys_io_error_hook].
  rewrite N, Z.eqb_refl. cbn [negb].
  eexists _, _, _, _. rewrite <- !app_assoc. reflexivity.
Qed.

End TempFileNameProperties.

Lemma sqlite3OsTempFileName_shape_witness :
  exists (rc : ResultCode) (zBuf : cstring) (s' : Sys),
    sqlite3OsTempFileName sample_prefix 260 1 sys_empty = Some (rc, zBuf, s') /\
    rc = SQLITE_OK /\
    exists (g : SysReply) (dir cut suffix : cstring)
           (pre : list SysEvent) (r : SysReply),
      stext g = dir ++ cut /\
      Forall (eq backslash) cut /\
      no_trailing_backslash dir /\
      zBuf = dir ++ [backslash] ++ sample_prefix ++ suffix /\
      length suffix = 15%nat /\
      Forall (fun c => is_alnum c = true) suffix /\
      sys_log s' =
      sys_log sys_empty ++ (GetTempPath (260 - 30), g) :: pre
                        ++ [(GetFileAttributes zBuf, r)] /\
      to_DWORD (sret r) = 0xffffffff.
Proof.
  eexists _, _, _. split; [reflexivity |].
  eapply (sqlite3OsTempFileName_shape sample_prefix 260 1 sys_empty).
  reflexivity.
Defined.

Lemma sqlite3OsTempFileName_returns_witness :
  nothing_exists sys_empty /\
  exists (zBuf : cstring) (g b r : SysReply),
    sqlite3OsTempFileName sample_prefix 260 (S 0) sys_empty
    = Some (SQLITE_OK, zBuf,
            mkSys (sys_io_error_hook sys_empty) (sys_host sys_empty)
              (sys_log sys_empty ++ [(GetTempPath (260 - 30), g);
                                     (RandomBytes 15, b);
                                     (GetFileAttributes zBuf, r)])).
Proof.
  assert (H1 : nothing_exists sys_empty) by (intros l name; reflexivity).
  split; [exact H1 |].
  exact (sqlite3OsTempFileName_returns sample_prefix 260 0 sys_empty H1).
Defined.

(** ** The mutex without threads *)

Lemma run_mutex_from (ops : list MutexOp) :
  forall m : Z,
    m = 0 \/ m = 1 ->
    run_mutex ops m =
    if alternates (if m =? 0 then Enter else Leave) ops
    then Some (if Nat.even (length ops) then m else 1 - m)
    else None.
Proof.
  induction ops as [|op ops IH]; intros m Hm.
  - cbn. destruct (m =? 0); reflexivity.
  - destruct Hm as [-> | ->]; destruct op;
      cbn [run_mutex alternates length Z.eqb
           sqlite3OsEnterMutex sqlite3OsLeaveMutex];
      unfold sqlite3OsEnterMutex, sqlite3OsLeaveMutex; cbn [Z.eqb];
      try reflexivity;
      rewrite IH by auto; cbn [Z.eqb];
      destruct (alternates _ ops); try reflexivity;
      rewrite Nat.even_succ, <- Nat.negb_even;
      destruct (Nat.even (length ops)); reflexivity.
Qed.

(** X14 -- without threads the mutex is a flag guarded by assertions: a
    sequence of enter and leave calls started outside the mutex trips no
    assertion exactly when the calls alternate, beginning with an enter; it
    then ends inside the mutex exactly when the number of calls is odd. In
    particular entering twice in a row trips the assertion. *)
Theorem run_mutex_alternates :
  forall ops : list MutexOp,
    run_mutex ops 0 =
    if alternates Enter ops
    then Some (if Nat.even (length ops) then 0 else 1)
    else None.
Proof.
  intros ops. rewrite (run_mutex_from ops 0) by auto. reflexivity.
Qed.
